(** * dpymenus: the button-driven menu session

    A shallow embedding of [dpymenus/menus/base_menu.py] (class [BaseMenu])
    and [dpymenus/button_menu.py] (class [ButtonMenu]), and the properties
    of the session state machine stated over it.  Left out are
    [_check_message], the filter of the text-driven menus, and the [data]
    dictionary of [ButtonMenu], which no method reads.

    Python objects become records, attribute reads that can fail become
    explicit exceptions, and every method is a computation in a state and
    exception monad whose state is the menu object together with the
    process-wide registry, the log and the chat platform. *)

From Stdlib Require Import ZArith List String Ascii Bool Lia.
From stdpp Require Import base gmap strings list.

Local Open Scope Z_scope.

(** ** Python values *)

Module Py.

(** The exceptions the two classes raise or run into.  [ButtonsError],
    [EventError], [SessionError] and [PagesError] are those of
    [dpymenus.exceptions]; the others are Python's own, and [NotFound] is the
    platform's answer to a fetch of a message that no longer exists. *)
Inductive exn : Type :=
  | ButtonsError
  | EventError
  | SessionError
  | PagesError
  | AttributeError
  | TypeError
  | IndexError
  | KeyError
  | NotFound.

Inductive res (A : Type) : Type :=
  | Ok (a : A)
  | Raise (e : exn).
Arguments Ok {A} a.
Arguments Raise {A} e.

(** [l[i]] with Python's negative indices; [None] stands for [IndexError]. *)
Definition getitem {A} (l : list A) (i : Z) : option A :=
  let n := Z.of_nat (length l) in
  if (0 <=? i) && (i <? n) then nth_error l (Z.to_nat i)
  else if (- n <=? i) && (i <? 0) then nth_error l (Z.to_nat (n + i))
  else None.

(** [l[i:]]: a slice clamps its bound instead of failing. *)
Definition slice_from {A} (l : list A) (i : Z) : list A :=
  let n := Z.of_nat (length l) in
  let start := if i <? 0 then Z.max (n + i) 0 else Z.min i n in
  skipn (Z.to_nat start) l.

(** [s.split(sep)] for a one-character separator: the pieces between the
    separators, so the result is never empty. *)
Fixpoint split (sep : ascii) (s : string) : list string :=
  match s with
  | EmptyString => [EmptyString]
  | String c rest =>
      if Ascii.eqb c sep then EmptyString :: split sep rest
      else match split sep rest with
           | [] => [String c EmptyString]
           | piece :: pieces => String c piece :: pieces
           end
  end.

End Py.
Import Py.

(** ** The platform's objects (discord.py), as far as the menus read them *)

(** A custom emoji the bot knows, and the partial emoji a raw reaction event
    carries ([pe_id] is [None] for a unicode emoji). *)
Record Emoji := { emoji_id : Z; emoji_name : string }.
Record PartialEmoji := { pe_id : option Z; pe_name : string }.

(** [dpymenus.types.Button]: a string, an [Emoji] or a [PartialEmoji]. *)
Inductive Button : Type :=
  | BStr (s : string)
  | BEmoji (e : Emoji)
  | BPartial (p : PartialEmoji).

(** An entry of [Message.reactions]: a [Reaction] with its emoji, or a value
    that is not a [Reaction] (the source keeps a branch for it). *)
Inductive ReactionEntry : Type :=
  | IsReaction (emoji : Button)
  | NotReaction (v : string).

Record Message := {
  msg_id : Z;
  in_guild : bool;                (* isinstance(channel, GuildChannel) *)
  reactions : list ReactionEntry
}.

Record RawReactionActionEvent := {
  user_id : Z;
  message_id : Z;
  emoji : PartialEmoji
}.

(** [==] on buttons: strings by content, emojis by id (discord.py compares
    [Emoji] and [PartialEmoji] through their ids), never across the two. *)
Definition opt_Z_eqb (a b : option Z) : bool :=
  match a, b with
  | Some x, Some y => x =? y
  | None, None => true
  | _, _ => false
  end.

Definition emoji_eq_partial (e : Emoji) (p : PartialEmoji) : bool :=
  opt_Z_eqb (Some (emoji_id e)) (pe_id p).

Definition button_eqb (a b : Button) : bool :=
  match a, b with
  | BStr s, BStr t => String.eqb s t
  | BEmoji e, BEmoji f => emoji_id e =? emoji_id f
  | BEmoji e, BPartial p | BPartial p, BEmoji e => emoji_eq_partial e p
  | BPartial p, BPartial q =>
      match pe_id p with
      | None => String.eqb (pe_name p) (pe_name q)
      | Some _ => opt_Z_eqb (pe_id p) (pe_id q)
      end
  | _, _ => false
  end.

(** Truth value of a button: a string is false when empty, an object true. *)
Definition button_truthy (b : Button) : bool :=
  match b with
  | BStr s => negb (String.eqb s "")
  | _ => true
  end.

(** ** Pages and their hooks *)

(** What a hook may do with the menu it is handed: the navigation and closing
    methods of [BaseMenu], possibly guarded by [ButtonMenu.button_pressed]. *)
Inductive Target : Type :=
  | ByIndex (i : Z)
  | ByName (name : string).

Inductive Call : Type :=
  | CNext
  | CPrevious
  | CToFirst
  | CToLast
  | CGoTo (t : option Target)
  | CClose.

Inductive Stmt : Type :=
  | Do (c : Call)
  | IfPressed (b : Button) (c : Call).

(** An [on_next] callback: a function with a [__name__] and a body. *)
Record Hook := { hook_name : string; hook_body : list Stmt }.

(** [dpymenus.Page], by the attributes the menus read.  The cancel, timeout
    and fail callbacks are called without the menu, so only their names
    matter here. *)
Record Page := {
  index : Z;
  title : string;
  buttons_list : list Button;
  on_next_event : option Hook;
  on_fail_event : option string;
  on_cancel_event : option string;
  on_timeout_event : option string
}.

Definition set_index (i : Z) (p : Page) : Page :=
  {| index := i; title := title p; buttons_list := buttons_list p;
     on_next_event := on_next_event p; on_fail_event := on_fail_event p;
     on_cancel_event := on_cancel_event p;
     on_timeout_event := on_timeout_event p |}.

(** ** The menu object *)

(** [self.input]: nothing, the invoking message, or the pressed button. *)
Inductive InputVal : Type :=
  | INone
  | IMessage (m : Message)
  | IButton (b : Button).

Definition truthy (v : InputVal) : bool :=
  match v with
  | INone => false
  | IMessage _ => true
  | IButton b => button_truthy b
  end.

(** [discord.ext.commands.Context]: author, channel, invoking message and the
    emojis the bot knows. *)
Record Context := {
  author_id : Z;
  channel_id : Z;
  message : Message;
  bot_emojis : list Emoji
}.

(** A [User] or [TextChannel] given to [set_destination]. *)
Record Destination := { dest_in_guild : bool }.

(** The attributes of a [ButtonMenu].  [ref] is the object's identity, the
    value the registry stores.  [_timeout] and [_destination] are [None]
    until their setter has run; [_command_message] and [_persist] read as
    [False] until then.  [custom_check] is read by the reaction sources,
    but neither class defines it: the attribute exists only once the caller
    has assigned it ([None]: it does not exist; [Some None]: assigned [None];
    [Some (Some check)]: assigned a predicate). *)
Record Menu := {
  ref : nat;
  ctx : Context;
  pages : list Page;
  page : option Page;
  active : bool;
  input : InputVal;
  output : option Message;
  history : list Z;
  _timeout : option Z;
  _destination : option Destination;
  _command_message : bool;
  _persist : bool;
  custom_check : option (option (RawReactionActionEvent -> bool))
}.

(** [BaseMenu.__init__] *)
Definition BaseMenu (r : nat) (c : Context) : Menu :=
  {| ref := r; ctx := c; pages := []; page := None; active := true;
     input := INone; output := None; history := [];
     _timeout := None; _destination := None; _command_message := false;
     _persist := false; custom_check := None |}.

(** [ButtonMenu.__init__] only calls its parent's. *)
Definition ButtonMenu (r : nat) (c : Context) : Menu := BaseMenu r c.

Definition with_pages (v : list Page) (m : Menu) : Menu :=
  {| ref := ref m; ctx := ctx m; pages := v; page := page m;
     active := active m; input := input m; output := output m;
     history := history m; _timeout := _timeout m;
     _destination := _destination m; _command_message := _command_message m;
     _persist := _persist m; custom_check := custom_check m |}.

Definition with_page (v : option Page) (m : Menu) : Menu :=
  {| ref := ref m; ctx := ctx m; pages := pages m; page := v;
     active := active m; input := input m; output := output m;
     history := history m; _timeout := _timeout m;
     _destination := _destination m; _command_message := _command_message m;
     _persist := _persist m; custom_check := custom_check m |}.

Definition with_active (v : bool) (m : Menu) : Menu :=
  {| ref := ref m; ctx := ctx m; pages := pages m; page := page m;
     active := v; input := input m; output := output m;
     history := history m; _timeout := _timeout m;
     _destination := _destination m; _command_message := _command_message m;
     _persist := _persist m; custom_check := custom_check m |}.

Definition with_input (v : InputVal) (m : Menu) : Menu :=
  {| ref := ref m; ctx := ctx m; pages := pages m; page := page m;
     active := active m; input := v; output := output m;
     history := history m; _timeout := _timeout m;
     _destination := _destination m; _command_message := _command_message m;
     _persist := _persist m; custom_check := custom_check m |}.

Definition with_output (v : option Message) (m : Menu) : Menu :=
  {| ref := ref m; ctx := ctx m; pages := pages m; page := page m;
     active := active m; input := input m; output := v;
     history := history m; _timeout := _timeout m;
     _destination := _destination m; _command_message := _command_message m;
     _persist := _persist m; custom_check := custom_check m |}.

Definition with_history (v : list Z) (m : Menu) : Menu :=
  {| ref := ref m; ctx := ctx m; pages := pages m; page := page m;
     active := active m; input := input m; output := output m;
     history := v; _timeout := _timeout m;
     _destination := _destination m; _command_message := _command_message m;
     _persist := _persist m; custom_check := custom_check m |}.

(** The fluent setters of [BaseMenu] and the properties that read them. *)
Definition set_timeout (t : Z) (m : Menu) : Menu :=
  {| ref := ref m; ctx := ctx m; pages := pages m; page := page m;
     active := active m; input := input m; output := output m;
     history := history m; _timeout := Some t;
     _destination := _destination m; _command_message := _command_message m;
     _persist := _persist m; custom_check := custom_check m |}.

Definition set_destination (d : Destination) (m : Menu) : Menu :=
  {| ref := ref m; ctx := ctx m; pages := pages m; page := page m;
     active := active m; input := input m; output := output m;
     history := history m; _timeout := _timeout m;
     _destination := Some d; _command_message := _command_message m;
     _persist := _persist m; custom_check := custom_check m |}.

Definition show_command_message (m : Menu) : Menu :=
  {| ref := ref m; ctx := ctx m; pages := pages m; page := page m;
     active := active m; input := input m; output := output m;
     history := history m; _timeout := _timeout m;
     _destination := _destination m; _command_message := true;
     _persist := _persist m; custom_check := custom_check m |}.

Definition persist_on_close (m : Menu) : Menu :=
  {| ref := ref m; ctx := ctx m; pages := pages m; page := page m;
     active := active m; input := input m; output := output m;
     history := history m; _timeout := _timeout m;
     _destination := _destination m; _command_message := _command_message m;
     _persist := true; custom_check := custom_check m |}.

(** [menu.custom_check = v], an assignment made by the caller. *)
Definition assign_custom_check
  (v : option (RawReactionActionEvent -> bool)) (m : Menu) : Menu :=
  {| ref := ref m; ctx := ctx m; pages := pages m; page := page m;
     active := active m; input := input m; output := output m;
     history := history m; _timeout := _timeout m;
     _destination := _destination m; _command_message := _command_message m;
     _persist := _persist m; custom_check := Some v |}.

Definition timeout (m : Menu) : Z := default 300 (_timeout m).

Definition destination (m : Menu) : Destination :=
  default {| dest_in_guild := in_guild (message (ctx m)) |} (_destination m).

Definition command_message (m : Menu) : bool := _command_message m.
Definition persist (m : Menu) : bool := _persist m.

(** The key of a session in the registry: [(ctx.author.id, ctx.channel.id)]. *)
Definition identity (m : Menu) : Z * Z :=
  (author_id (ctx m), channel_id (ctx m)).

(** ** What lies outside the menu object *)

Inductive Level : Type := INFO | WARNING | ERROR.

(** A log record carries the message of the exception that caused it, or the
    throttling warning of [_validate_buttons]. *)
Inductive LogMsg : Type :=
  | MessageOf (e : exn)
  | ThrottleWarning.

(** What is rendered: a page's embed, or the default notice of a timeout. *)
Inductive Content : Type :=
  | PageEmbed (p : Page)
  | TimedOutEmbed.

(** The calls made on the platform client, in order.  The platform is an
    output sink: a call is recorded and, for messages and reactions, applied
    to the platform's copy of the message; network failures are left out. *)
Inductive ApiCall : Type :=
  | Send (id : Z) (c : Content)
  | Edit (id : Z) (c : Content)
  | Delete (id : Z)
  | AddReaction (id : Z) (b : Button)
  | RemoveReaction (id : Z) (v : InputVal) (user : Z)
  | ClearReactions (id : Z)
  | FetchMessage (id : Z).

(** [sessions] is the module-level dictionary [dpymenus.sessions], from
    identity to the menu object registered for it. *)
Record Env := {
  sessions : gmap (Z * Z) nat;
  log : list (Level * LogMsg);
  remote : gmap Z Message;
  next_id : Z;
  api : list ApiCall;
  hook_calls : list string
}.

Definition with_sessions (v : gmap (Z * Z) nat) (e : Env) : Env :=
  {| sessions := v; log := log e; remote := remote e; next_id := next_id e;
     api := api e; hook_calls := hook_calls e |}.

Definition with_log (v : list (Level * LogMsg)) (e : Env) : Env :=
  {| sessions := sessions e; log := v; remote := remote e;
     next_id := next_id e; api := api e; hook_calls := hook_calls e |}.

Definition with_remote (v : gmap Z Message) (e : Env) : Env :=
  {| sessions := sessions e; log := log e; remote := v; next_id := next_id e;
     api := api e; hook_calls := hook_calls e |}.

Definition with_next_id (v : Z) (e : Env) : Env :=
  {| sessions := sessions e; log := log e; remote := remote e; next_id := v;
     api := api e; hook_calls := hook_calls e |}.

Definition with_api (v : list ApiCall) (e : Env) : Env :=
  {| sessions := sessions e; log := log e; remote := remote e;
     next_id := next_id e; api := v; hook_calls := hook_calls e |}.

Definition with_hook_calls (v : list string) (e : Env) : Env :=
  {| sessions := sessions e; log := log e; remote := remote e;
     next_id := next_id e; api := api e; hook_calls := v |}.

Record St := { self : Menu; env : Env }.

(** ** The monad of a method: state, and exceptions that keep the state *)

Definition M (A : Type) : Type := St -> res A * St.

Definition ret {A} (a : A) : M A := fun st => (Ok a, st).

Definition bind {A B} (c : M A) (k : A -> M B) : M B :=
  fun st =>
    match c st with
    | (Ok a, st') => k a st'
    | (Raise e, st') => (Raise e, st')
    end.

Definition raise {A} (e : exn) : M A := fun st => (Raise e, st).

(** [try: c] with the outcome handed to the [except] and [else] clauses. *)
Definition try {A} (c : M A) : M (res A) :=
  fun st => let '(r, st') := c st in (Ok r, st').

Declare Scope menu_scope.
Delimit Scope menu_scope with menu.
Notation "x <- c1 ;; c2" := (bind c1 (fun x => c2))
  (at level 100, c1 at next level, c2 at level 200, right associativity)
  : menu_scope.
Notation "c1 ;; c2" := (bind c1 (fun _ => c2))
  (at level 100, c2 at level 200, right associativity) : menu_scope.
Local Open Scope menu_scope.

Definition get_self : M Menu := fun st => (Ok (self st), st).
Definition get_env : M Env := fun st => (Ok (env st), st).

Definition update_self (f : Menu -> Menu) : M unit :=
  fun st => (Ok tt, {| self := f (self st); env := env st |}).

Definition update_env (f : Env -> Env) : M unit :=
  fun st => (Ok tt, {| self := self st; env := f (env st) |}).

(** [self.page.<attr>] and [self.output.<attr>] fail on [None]. *)
Definition current_page : M Page :=
  m <- get_self ;;
  match page m with
  | Some p => ret p
  | None => raise AttributeError
  end.

Definition current_output : M Message :=
  m <- get_self ;;
  match output m with
  | Some o => ret o
  | None => raise AttributeError
  end.

Definition logging (l : Level) (msg : LogMsg) : M unit :=
  update_env (fun e => with_log (log e ++ [(l, msg)]) e).

Definition record_call (c : ApiCall) : M unit :=
  update_env (fun e => with_api (api e ++ [c]) e).

(** Calling a callback that takes no menu: its invocation is recorded. *)
Definition invoke (name : string) : M unit :=
  update_env (fun e => with_hook_calls (hook_calls e ++ [name]) e).

(** ** The platform client *)

Definition with_reactions (v : list ReactionEntry) (m : Message) : Message :=
  {| msg_id := msg_id m; in_guild := in_guild m; reactions := v |}.

Definition has_reaction (b : Button) (m : Message) : bool :=
  existsb (fun r => match r with
                    | IsReaction b' => button_eqb b b'
                    | NotReaction _ => false
                    end) (reactions m).

(** [destination.send(embed=...)]: a new message in the destination. *)
Definition api_send (c : Content) : M Message :=
  m <- get_self ;;
  e <- get_env ;;
  let msg := {| msg_id := next_id e;
                in_guild := dest_in_guild (destination m);
                reactions := [] |} in
  update_env (fun e => with_next_id (next_id e + 1)
                         (with_remote (<[msg_id msg := msg]> (remote e)) e)) ;;
  record_call (Send (msg_id msg) c) ;;
  ret msg.

Definition api_edit (msg : Message) (c : Content) : M unit :=
  record_call (Edit (msg_id msg) c).

Definition api_delete (msg : Message) : M unit :=
  update_env (fun e => with_remote (delete (msg_id msg) (remote e)) e) ;;
  record_call (Delete (msg_id msg)).

Definition api_add_reaction (msg : Message) (b : Button) : M unit :=
  update_env (fun e =>
    with_remote
      (alter (fun r => if has_reaction b r then r
                       else with_reactions (reactions r ++ [IsReaction b]) r)
             (msg_id msg) (remote e)) e) ;;
  record_call (AddReaction (msg_id msg) b).

Definition api_remove_reaction (msg : Message) (v : InputVal) (user : Z)
  : M unit :=
  record_call (RemoveReaction (msg_id msg) v user).

Definition api_clear_reactions (msg : Message) : M unit :=
  update_env (fun e =>
    with_remote (alter (with_reactions []) (msg_id msg) (remote e)) e) ;;
  record_call (ClearReactions (msg_id msg)).

Definition api_fetch_message (id : Z) : M Message :=
  record_call (FetchMessage id) ;;
  e <- get_env ;;
  match remote e !! id with
  | Some msg => ret msg
  | None => raise NotFound
  end.

(** ** Constants of the package kept in other modules

    [HISTORY_CACHE_LIMIT] ([dpymenus.config]) and [HIDE_WARNINGS]
    ([dpymenus.settings]) are imported by the two classes; the table
    [UNICODE_EMOJI_ALIAS_ENGLISH] belongs to the [emoji] package and is read
    here only through membership of a key. *)
Class Settings := {
  HISTORY_CACHE_LIMIT : Z;
  HIDE_WARNINGS : bool;
  UNICODE_EMOJI_ALIAS_ENGLISH : string -> bool
}.

(** ** [BaseMenu] *)

Section BaseMenuMethods.
Context `{cfg : Settings}.

(** [last_visited_page]: [self.history[-2] if len(self.history) > 1 else 0] *)
Definition last_visited_page : M Z :=
  m <- get_self ;;
  if 1 <? Z.of_nat (length (history m)) then
    match getitem (history m) (-2) with
    | Some i => ret i
    | None => raise IndexError
    end
  else ret 0.

(** [update_history]: drop the oldest entry when the cache is full, then
    append the index of the current page. *)
Definition update_history : M unit :=
  m <- get_self ;;
  (if HISTORY_CACHE_LIMIT <=? Z.of_nat (length (history m)) then
     match history m with
     | [] => raise IndexError                       (* pop from empty list *)
     | _ :: rest => update_self (with_history rest)
     end
   else ret tt) ;;
  p <- current_page ;;
  update_self (fun m => with_history (history m ++ [index p]) m).

(** [_validate_pages] *)
Definition _validate_pages (ps : list Page) : M unit :=
  if Z.of_nat (length ps) =? 0 then raise PagesError else ret tt.

(** [add_pages]: validate, give each page its position as index, append it,
    and make the first page current.  [template] stands for the page
    transformation [apply_template(template)] when a template is given.
    Pages are values here: this is [add_pages] for a list of distinct [Page]
    objects that no other list holds.  [Objects.add_pages] below has the
    objects themselves. *)
Fixpoint add_each (i : Z) (ps : list Page) (template : option (Page -> Page))
  : M unit :=
  match ps with
  | [] => ret tt
  | p :: rest =>
      let p := match template with Some f => f p | None => p end in
      update_self (fun m => with_pages (pages m ++ [set_index i p]) m) ;;
      add_each (i + 1) rest template
  end.

Definition add_pages (ps : list Page) (template : option (Page -> Page))
  : M unit :=
  _validate_pages ps ;;
  add_each 0 ps template ;;
  m <- get_self ;;
  match getitem (pages m) 0 with
  | Some p => update_self (with_page (Some p))
  | None => raise IndexError
  end.

(** [send_message]: edit the output in a guild channel, otherwise delete it
    and send anew.  No caller uses the returned message. *)
Definition send_message (c : Content) : M unit :=
  out <- current_output ;;
  if in_guild out then api_edit out c
  else
    api_delete out ;;
    msg <- api_send c ;;
    update_self (with_output (Some msg)).

(** [flush] *)
Definition flush : M unit := update_env (with_sessions ∅).

(** [_start_session] *)
Definition _start_session : M bool :=
  m <- get_self ;;
  e <- get_env ;;
  if decide (identity m ∈ dom (sessions e)) then raise SessionError
  else
    update_env (fun e => with_sessions (<[identity m := ref m]> (sessions e)) e) ;;
    ret true.

(** [_cleanup_input] *)
Definition _cleanup_input : M unit :=
  m <- get_self ;;
  if negb (command_message m) then
    match input m with
    | IMessage msg => if in_guild msg then api_delete msg else ret tt
    | _ => raise AttributeError                     (* no [channel] *)
    end
  else ret tt.

(** [_open] *)
Definition _open : M unit :=
  m <- get_self ;;
  match pages m with
  | [] => ret tt
  | _ :: _ =>
      _start_session ;;
      p <- current_page ;;
      msg <- api_send (PageEmbed p) ;;
      update_self (with_output (Some msg)) ;;
      update_self (fun m => with_input (IMessage (message (ctx m))) m) ;;
      update_history ;;
      _cleanup_input
  end.

(** [close_session]: [del sessions[...]] fails when the key is absent. *)
Definition close_session : M unit :=
  m <- get_self ;;
  e <- get_env ;;
  if decide (identity m ∈ dom (sessions e)) then
    update_env (fun e => with_sessions (delete (identity m) (sessions e)) e) ;;
    update_self (with_active false)
  else raise KeyError.

(** [_post_next]; the class is [ButtonMenu], never ["PaginatedMenu"]. *)
Definition _post_next : M unit :=
  p <- current_page ;;
  match on_next_event p with
  | None => close_session ;; update_self (with_active false)
  | Some _ => ret tt
  end ;;
  update_history ;;
  p <- current_page ;;
  send_message (PageEmbed p).

(** [_cleanup_output] *)
Definition _cleanup_output : M unit :=
  m <- get_self ;;
  if negb (persist m) then
    out <- current_output ;;
    api_delete out ;;
    update_self (with_output None)
  else ret tt.

(** [_execute_cancel] *)
Definition _execute_cancel : M unit :=
  p <- current_page ;;
  match on_cancel_event p with
  | Some f => invoke f
  | None =>
      _cleanup_output ;;
      close_session ;;
      update_self (with_active false)
  end.

(** [close] *)
Definition close : M unit := _execute_cancel.

(** [_execute_timeout] *)
Definition _execute_timeout : M unit :=
  p <- current_page ;;
  match on_timeout_event p with
  | Some f => invoke f
  | None =>
      send_message TimedOutEmbed ;;
      close_session ;;
      update_self (with_active false)
  end.

(** [BaseMenu._get_input], the input collection of the text-driven menus,
    which [ButtonMenu] overrides: [delivered] is the message [wait_for]
    returned, [None] when it raised [asyncio.TimeoutError]. *)
Definition BaseMenu_get_input (delivered : option Message) : M InputVal :=
  match delivered with
  | None =>
      p <- current_page ;;
      match on_timeout_event p with
      | Some f => invoke f
      | None => _execute_timeout
      end ;;
      ret INone
  | Some message => ret (IMessage message)
  end.

(** [next] *)
Definition next : M unit :=
  p <- current_page ;;
  m <- get_self ;;
  if index p + 1 >? Z.of_nat (length (pages m)) - 1 then ret tt
  else
    match getitem (pages m) (index p + 1) with
    | Some q => update_self (with_page (Some q)) ;; _post_next
    | None => raise IndexError
    end.

(** [previous] *)
Definition previous : M unit :=
  p <- current_page ;;
  if index p - 1 <? 0 then ret tt
  else
    m <- get_self ;;
    match getitem (pages m) (index p - 1) with
    | Some q => update_self (with_page (Some q)) ;; _post_next
    | None => raise IndexError
    end.

(** [to_first] *)
Definition to_first : M unit :=
  m <- get_self ;;
  match getitem (pages m) 0 with
  | Some q => update_self (with_page (Some q)) ;; _post_next
  | None => raise IndexError
  end.

(** [to_last]: [self.pages[-1:][0]] *)
Definition to_last : M unit :=
  m <- get_self ;;
  match getitem (slice_from (pages m) (-1)) 0 with
  | Some q => update_self (with_page (Some q)) ;; _post_next
  | None => raise IndexError
  end.

(** [go_to]: by position, or by the name of a page's [on_next] callback
    (reading [__name__] of a missing callback fails). *)
Fixpoint find_by_name (name : string) (ps : list Page) : M unit :=
  match ps with
  | [] => ret tt
  | p :: rest =>
      match on_next_event p with
      | None => raise AttributeError
      | Some h =>
          if String.eqb (hook_name h) name then update_self (with_page (Some p))
          else find_by_name name rest
      end
  end.

Definition go_to (target : option Target) : M unit :=
  m <- get_self ;;
  match target with
  | Some (ByIndex i) =>
      match getitem (pages m) i with
      | Some q => update_self (with_page (Some q))
      | None => raise IndexError
      end
  | Some (ByName name) => find_by_name name (pages m)
  | None => ret tt
  end ;;
  _post_next.

End BaseMenuMethods.

(** ** [ButtonMenu] *)

(** What one of the three racing tasks of [_get_input] has met when it is
    found done: the event [wait_for] delivered to a reaction source ([None]
    when [wait_for] raised [asyncio.TimeoutError] instead), or the liveness
    poll seeing the menu inactive. *)
Inductive Completed : Type :=
  | ReactionAdd (delivered : option RawReactionActionEvent)
  | ReactionRemove (delivered : option RawReactionActionEvent)
  | Shortcircuit.

(** How a call of [open] ends: it returns, or it is still in its loop,
    waiting in [_get_input] for events the script no longer provides. *)
Inductive Outcome : Type :=
  | Returned
  | Awaiting.

Section ButtonMenuMethods.
Context `{cfg : Settings}.

(** [button_pressed]: [button == self.input] *)
Definition button_pressed (b : Button) : M bool :=
  m <- get_self ;;
  ret match input m with
      | IButton b' => button_eqb b b'
      | _ => false
      end.

(** [_add_buttons] *)
Fixpoint add_reactions (bs : list Button) : M unit :=
  match bs with
  | [] => ret tt
  | b :: rest =>
      out <- current_output ;;
      api_add_reaction out b ;;
      add_reactions rest
  end.

Definition _add_buttons : M unit :=
  p <- current_page ;;
  add_reactions (buttons_list p).

(** [_get_emoji]: the button of the current page the event's emoji names. *)
Fixpoint match_button (bs : list Button) (ev : RawReactionActionEvent)
  : option Button :=
  match bs with
  | [] => None
  | btn :: rest =>
      match btn with
      | BEmoji e =>
          if emoji_eq_partial e (emoji ev) then Some btn
          else match_button rest ev
      | BStr s =>
          let _test := split ":" s in
          if 1 <? Z.of_nat (length _test) then
            if match getitem _test 1 with
               | Some t => String.eqb t (pe_name (emoji ev))
               | None => false
               end
            then Some btn else match_button rest ev
          else
            if String.eqb s (pe_name (emoji ev)) then Some btn
            else match_button rest ev
      | BPartial _ => Some (BPartial (emoji ev))
      end
  end.

Definition _get_emoji (ev : RawReactionActionEvent) : M (option Button) :=
  p <- current_page ;;
  ret (match_button (buttons_list p) ev).

(** [_safe_clear_reactions] *)
Definition _safe_clear_reactions : M unit :=
  m <- get_self ;;
  match output m with
  | Some out => if in_guild out then api_clear_reactions out else ret tt
  | None => ret tt
  end.

(** The value [_check_reaction] compares the event's emoji name with, for one
    entry of [self.output.reactions]: the name of an [Emoji], a string as it
    is, and for a [PartialEmoji] the object itself, which equals no string. *)
Definition attached_symbol (r : ReactionEntry) : option string :=
  match r with
  | IsReaction (BEmoji e) => Some (emoji_name e)
  | IsReaction (BStr s) => Some s
  | IsReaction (BPartial _) => None
  | NotReaction v => Some v
  end.

(** [_check_reaction]; [and] stops at the first false operand, so a missing
    output is only met once the author matches. *)
Definition _check_reaction (m : Menu) (ev : RawReactionActionEvent)
  : res bool :=
  if negb (user_id ev =? author_id (ctx m)) then Ok false
  else
    match output m with
    | None => Raise AttributeError
    | Some out =>
        if negb (message_id ev =? msg_id out) then Ok false
        else
          Ok (existsb
                (fun btn => match btn with
                            | Some s => String.eqb (pe_name (emoji ev)) s
                            | None => false
                            end)
                (map attached_symbol (reactions out)))
    end.

(** The [check] both reaction sources hand to [wait_for]:
    [self.custom_check if self.custom_check else self._check_reaction].
    Reading the attribute fails when nothing has assigned it. *)
Definition reaction_check (m : Menu)
  : res (RawReactionActionEvent -> res bool) :=
  match custom_check m with
  | None => Raise AttributeError
  | Some (Some check) => Ok (fun ev => Ok (check ev))
  | Some None => Ok (_check_reaction m)
  end.

(** [self._timeout()].  No method of that name exists in either class:
    [_timeout] is the attribute [set_timeout] stores the duration in, so the
    lookup fails when it was never set and the call fails when it was. *)
Definition call__timeout : M unit :=
  m <- get_self ;;
  match _timeout m with
  | None => raise AttributeError
  | Some _ => raise TypeError                       (* an int is not callable *)
  end.

(** [_get_reaction_add] and [_get_reaction_remove]: the arguments of
    [wait_for] are evaluated, the [check] among them; [wait_for] then either
    delivers an event that passed the check, or raises
    [asyncio.TimeoutError]. *)
Definition _get_reaction_add (delivered : option RawReactionActionEvent)
  : M (option Button) :=
  m <- get_self ;;
  match reaction_check m with
  | Raise e => raise e
  | Ok _ =>
      match delivered with
      | None => call__timeout ;; ret None
      | Some event => _get_emoji event
      end
  end.

Definition _get_reaction_remove (delivered : option RawReactionActionEvent)
  : M (option Button) :=
  m <- get_self ;;
  match reaction_check m with
  | Raise e => raise e
  | Ok _ =>
      match delivered with
      | None => call__timeout ;; ret None
      | Some event => _get_emoji event
      end
  end.

(** [_shortcircuit] returns nothing once [self.active] is false. *)
Definition _shortcircuit : M (option Button) := ret None.

(** [future.result()] of a task that is done. *)
Definition result (future : Completed) : M (option Button) :=
  match future with
  | ReactionAdd delivered => _get_reaction_add delivered
  | ReactionRemove delivered => _get_reaction_remove delivered
  | Shortcircuit => _shortcircuit
  end.

(** [_get_input].  [done] lists the tasks [asyncio.wait] found done, in the
    order the [for] loop meets them; the three tasks are all pending exactly
    when it is empty.  Cancelling the pending tasks changes nothing here.
    The loop leaves at its first future, by [break] or by [return], and no
    path of the method returns a value. *)
Definition _get_input (done : list Completed) : M InputVal :=
  match done with
  | [] => call__timeout ;; ret INone
  | future :: _ =>
      r <- result future ;;
      match r with
      | Some b =>
          if button_truthy b then
            update_self (with_input (IButton b)) ;; ret INone   (* break *)
          else ret INone                                        (* return *)
      | None => ret INone                                       (* return *)
      end
  end.

(** [_check_buttons] *)
Definition button_ok (known : list Emoji) (b : Button) : bool :=
  match b with
  | BEmoji _ | BPartial _ => true
  | BStr s =>
      let _test := split ":" s in
      if (1 <? Z.of_nat (length _test))
         && match getitem _test 1 with
            | Some t => existsb (String.eqb t) (map emoji_name known)
            | None => false
            end
      then true
      else UNICODE_EMOJI_ALIAS_ENGLISH s
  end.

Fixpoint check_each (known : list Emoji) (bs : list Button) : M unit :=
  match bs with
  | [] => ret tt
  | b :: rest =>
      if button_ok known b then check_each known rest
      else raise ButtonsError
  end.

Definition _check_buttons (bs : list Button) : M unit :=
  m <- get_self ;;
  check_each (bot_emojis (ctx m)) bs.

(** [_validate_buttons]: the loop over the pages, which stops at the first
    page without buttons, then the two checks after it. *)
Fixpoint count_callbacks (ps : list Page) (_cb_count : Z) : M Z :=
  match ps with
  | [] => ret _cb_count
  | p :: rest =>
      match buttons_list p with
      | [] => ret _cb_count                                     (* break *)
      | _ :: _ =>
          let _cb_count :=
            match on_next_event p with
            | Some _ => _cb_count + 1
            | None => _cb_count
            end in
          if Z.of_nat (length (buttons_list p)) <? 1 then raise ButtonsError
          else
            (if (5 <? Z.of_nat (length (buttons_list p)))
                && negb HIDE_WARNINGS
             then logging WARNING ThrottleWarning else ret tt) ;;
            _check_buttons (buttons_list p) ;;
            count_callbacks rest _cb_count
      end
  end.

Definition _validate_buttons : M unit :=
  m <- get_self ;;
  _cb_count <- count_callbacks (pages m) 0 ;;
  p <- current_page ;;
  match on_fail_event p with
  | Some _ => raise EventError
  | None =>
      if _cb_count <? Z.of_nat (length (pages m)) - 1 then raise EventError
      else ret tt
  end.

(** Running a page's [on_next] callback on the menu. *)
Definition run_call (c : Call) : M unit :=
  match c with
  | CNext => next
  | CPrevious => previous
  | CToFirst => to_first
  | CToLast => to_last
  | CGoTo t => go_to t
  | CClose => close
  end.

Definition run_stmt (s : Stmt) : M unit :=
  match s with
  | Do c => run_call c
  | IfPressed b c =>
      pressed <- button_pressed b ;;
      if (pressed : bool) then run_call c else ret tt
  end.

Fixpoint run_body (body : list Stmt) : M unit :=
  match body with
  | [] => ret tt
  | s :: rest => run_stmt s ;; run_body rest
  end.

(** [await self.page.on_next_event(self)] *)
Definition call_on_next_event : M unit :=
  p <- current_page ;;
  match on_next_event p with
  | None => raise TypeError                         (* None is not callable *)
  | Some h => invoke (hook_name h) ;; run_body (hook_body h)
  end.

(** [self._cleanup_reactions()].  Neither class defines a method of that
    name (the one at hand is [_safe_clear_reactions]): the lookup fails. *)
Definition call__cleanup_reactions : M unit := raise AttributeError.

(** The [while self.active] loop of [open].  Each element of [script] is what
    [asyncio.wait] reports in one iteration; the loop stops, [Awaiting], where
    [_get_input] is reached and the script has nothing more. *)
Fixpoint main_loop (_first_iter : bool) (script : list (list Completed))
  : M Outcome :=
  m <- get_self ;;
  if negb (active m) then ret Returned
  else
    (if negb _first_iter then
       visited <- last_visited_page ;;
       p <- current_page ;;
       if negb (visited =? index p) then _add_buttons
       else
         out <- current_output ;;
         if in_guild out then
           m <- get_self ;;
           api_remove_reaction out (input m) (author_id (ctx m))
         else ret tt
     else ret tt) ;;
    out <- current_output ;;
    fetched <- api_fetch_message (msg_id out) ;;
    update_self (with_output (Some fetched)) ;;
    match script with
    | [] => ret Awaiting
    | done :: rest =>
        got <- _get_input done ;;
        update_self (with_input got) ;;
        m <- get_self ;;
        (if truthy (input m) then
           call_on_next_event ;;
           visited <- last_visited_page ;;
           p <- current_page ;;
           if negb (visited =? index p) then call__cleanup_reactions
           else ret tt
         else ret tt) ;;
        main_loop false rest
    end.

(** [open] *)
Definition open (script : list (list Completed)) : M Outcome :=
  attempt <- try (_validate_buttons ;; _open) ;;
  match attempt with
  | Raise ButtonsError => logging ERROR (MessageOf ButtonsError) ;; ret Returned
  | Raise EventError => logging ERROR (MessageOf EventError) ;; ret Returned
  | Raise SessionError => logging INFO (MessageOf SessionError) ;; ret Returned
  | Raise e => raise e
  | Ok _ => _add_buttons ;; main_loop true script
  end.

End ButtonMenuMethods.

(** ** Several menus in one process

    The registry is shared by all sessions of the process; the menu objects
    live side by side.  [open_in r] runs [open] on the object [r] refers to. *)
Record World := { heap : gmap nat Menu; shared : Env }.

Definition open_in `{cfg : Settings} (r : nat) (script : list (list Completed))
  (w : World) : option (res Outcome) * World :=
  match heap w !! r with
  | Some m =>
      let '(out, st) := open script {| self := m; env := shared w |} in
      (Some out, {| heap := <[r := self st]> (heap w); shared := env st |})
  | None => (None, w)
  end.

(** ** Page objects

    [add_pages] assigns [page.index] on the objects of the caller's list and
    appends those very objects to [self.pages]; the caller, the menu and any
    other list that holds them see the assignment.  Here the [Page] objects
    live in a heap, and the caller's list, [self.pages] and [self.page] hold
    references.  This is the loop for a list of [Page] instances and a falsy
    [template], where the code neither converts nor rebinds [page]. *)
Module Objects.

(** [self.pages] and [self.page], as references: numbers that the heap
    maps to the objects. *)
Record Held := { held_pages : list nat; held_page : option nat }.

Fixpoint add_each (i : Z) (refs : list nat) (m : Held) (h : gmap nat Page)
  : Held * gmap nat Page :=
  match refs with
  | [] => (m, h)
  | r :: rest =>
      (* page.index = i; self.pages.append(page) *)
      add_each (i + 1) rest
        {| held_pages := held_pages m ++ [r]; held_page := held_page m |}
        (alter (set_index i) r h)
  end.

Definition add_pages (refs : list nat) (m : Held) (h : gmap nat Page)
  : res unit * (Held * gmap nat Page) :=
  if Z.of_nat (length refs) =? 0 then (Raise PagesError, (m, h))
  else
    let '(m', h') := add_each 0 refs m h in
    match getitem (held_pages m') 0 with
    | Some r =>
        (Ok tt, ({| held_pages := held_pages m'; held_page := Some r |}, h'))
    | None => (Raise IndexError, (m', h'))
    end.

(** The pages a list of references stands for. *)
Definition values (h : gmap nat Page) (refs : list nat) (ps : list Page)
  : Prop :=
  Forall2 (fun r p => h !! r = Some p) refs ps.

End Objects.

(** ** Driving the history

    A navigation makes a page current and [_post_next] then updates the
    history; [visits] does so for a sequence of pages. *)
Definition visit `{cfg : Settings} (p : Page) : M unit :=
  update_self (with_page (Some p)) ;; update_history.

Fixpoint visits `{cfg : Settings} (ps : list Page) : M unit :=
  match ps with
  | [] => ret tt
  | p :: rest => visit p ;; visits rest
  end.

(** The number of [on_next] callbacks [_validate_buttons] counts: those of the
    pages that come before the first page without buttons. *)
Fixpoint callbacks_before_gap (ps : list Page) : Z :=
  match ps with
  | [] => 0
  | p :: rest =>
      match buttons_list p with
      | [] => 0
      | _ :: _ =>
          (match on_next_event p with Some _ => 1 | None => 0 end)
          + callbacks_before_gap rest
      end
  end.

(** ** Notions the properties are stated with *)

(** The state after some records were appended to the log. *)
Definition add_log (l : list (Level * LogMsg)) (st : St) : St :=
  {| self := self st; env := with_log (log (env st) ++ l) (env st) |}.

Definition is_warning (r : Level * LogMsg) : Prop :=
  r = (WARNING, ThrottleWarning).

(** A computation that invokes no callback. *)
Definition silent {A} (c : M A) : Prop :=
  forall st, hook_calls (env (snd (c st))) = hook_calls (env st).





(** The state [send_message] leaves behind when the output is [out]: an edit
    in a guild channel, otherwise the old message deleted and a new one sent
    to the destination, which becomes the output. *)
Definition rendered (c : Content) (out : Message) (st : St) : St :=
  if in_guild out then
    {| self := self st;
       env := with_api (api (env st) ++ [Edit (msg_id out) c]) (env st) |}
  else
    let sent := {| msg_id := next_id (env st);
                   in_guild := dest_in_guild (destination (self st));
                   reactions := [] |} in
    {| self := with_output (Some sent) (self st);
       env :=
         with_api ((api (env st) ++ [Delete (msg_id out)])
                   ++ [Send (next_id (env st)) c])
           (with_next_id (next_id (env st) + 1)
              (with_remote
                 (<[next_id (env st) := sent]>
                    (delete (msg_id out) (remote (env st))))
                 (env st))) |}.

(** What a navigation that has found its target page [q] does, from the state
    [st] whose output is [out], as [_post_next] has it.  A target with an
    [on_next] callback becomes the current page, its index is the newest
    history entry and its embed the last thing rendered; the session stays
    as it was.  A target without callback is handled the same way, but the
    session is closed first: unregistered and inactive.  In both cases the
    page list is kept and there is an output message.  If the session is
    not registered when it is to be closed, closing raises [KeyError] after
    the current page has been changed, and nothing is rendered. *)
Definition arrives_at (q : Page) (out : Message) (st : St)
  (r : res unit * St) : Prop :=
  let shown :=
    last (api (env (snd r)))
    = Some (if in_guild out then Edit (msg_id out) (PageEmbed q)
            else Send (next_id (env st)) (PageEmbed q)) in
  match on_next_event q, sessions (env st) !! identity (self st) with
  | Some _, _ =>
      fst r = Ok tt
      /\ page (self (snd r)) = Some q
      /\ last (history (self (snd r))) = Some (index q)
      /\ shown
      /\ active (self (snd r)) = active (self st)
      /\ sessions (env (snd r)) = sessions (env st)
      /\ pages (self (snd r)) = pages (self st)
      /\ is_Some (output (self (snd r)))
  | None, Some _ =>
      fst r = Ok tt
      /\ page (self (snd r)) = Some q
      /\ last (history (self (snd r))) = Some (index q)
      /\ shown
      /\ active (self (snd r)) = false
      /\ sessions (env (snd r))
         = delete (identity (self st)) (sessions (env st))
      /\ pages (self (snd r)) = pages (self st)
      /\ is_Some (output (self (snd r)))
  | None, None =>
      r = (Raise KeyError,
           {| self := with_page (Some q) (self st); env := env st |})
  end.

(** What the loop of [_validate_buttons] comes to for a menu whose bot knows
    the emojis [known], apart from the state it threads: the count of
    callbacks or a [ButtonsError], and the warnings it logs. *)
Fixpoint loop_outcome `{cfg : Settings} (known : list Emoji) (ps : list Page)
  (n : Z) : res Z * list (Level * LogMsg) :=
  match ps with
  | [] => (Ok n, [])
  | p :: rest =>
      match buttons_list p with
      | [] => (Ok n, [])
      | _ :: _ =>
          let warned :=
            if (5 <? Z.of_nat (length (buttons_list p))) && negb HIDE_WARNINGS
            then [(WARNING, ThrottleWarning)] else [] in
          if forallb (button_ok known) (buttons_list p) then
            let '(r, l) :=
              loop_outcome known rest
                (match on_next_event p with Some _ => n + 1 | None => n end)
            in (r, warned ++ l)
          else (Raise ButtonsError, warned)
      end
  end.

(** The pages [add_pages] appends for the list [ps]: each page, transformed
    by the template when there is one, with its position in [ps] as index. *)
Definition indexed (template : option (Page -> Page)) (ps : list Page)
  : list Page :=
  imap (fun k p => set_index (Z.of_nat k) (default id template p)) ps.

(** [st'] is [st] after [_open] went through on page [p]: registered, the
    page sent as a new message that is now the output, the invoking message
    kept as input and deleted where the code deletes it, the page's index
    newest in the history. *)
Definition opened_from (st : St) (p : Page) (st' : St) : Prop :=
  sessions (env st')
  = <[identity (self st) := ref (self st)]> (sessions (env st))
  /\ output (self st')
     = Some {| msg_id := next_id (env st);
               in_guild := dest_in_guild (destination (self st));
               reactions := [] |}
  /\ input (self st') = IMessage (message (ctx (self st)))
  /\ last (history (self st')) = Some (index p)
  /\ api (env st')
     = (api (env st) ++ [Send (next_id (env st)) (PageEmbed p)])
       ++ (if negb (command_message (self st))
              && in_guild (message (ctx (self st)))
           then [Delete (msg_id (message (ctx (self st))))] else [])
  /\ active (self st') = active (self st)
  /\ page (self st') = Some p.

(** [open] rejects the configuration: [_validate_buttons] raises one of the
    package's configuration errors, and [open] returns with the registry as
    it was, the loop never entered. *)
Definition rejected_at_open `{cfg : Settings} (script : list (list Completed))
  (st : St) : Prop :=
  exists e : exn,
    (e = ButtonsError \/ e = EventError)
    /\ fst (_validate_buttons st) = Raise e
    /\ fst (open script st) = Ok Returned
    /\ sessions (env (snd (open script st))) = sessions (env st)
    /\ self (snd (open script st)) = self st.

Definition last_page_has_callback (st : St) : Prop :=
  exists p h, last (pages (self st)) = Some p /\ on_next_event p = Some h.

(** ** Concrete sessions *)

Module Scenario.

#[export] Instance settings : Settings := {|
  HISTORY_CACHE_LIMIT := 10;
  HIDE_WARNINGS := false;
  UNICODE_EMOJI_ALIAS_ENGLISH :=
    fun s => String.eqb s "🔄" || String.eqb s "❌"
|}.

Definition reload : Button := BStr "🔄".

Definition advance : Hook :=
  {| hook_name := "advance"; hook_body := [Do CNext] |}.

Definition blank : Page :=
  {| index := 0; title := ""; buttons_list := []; on_next_event := None;
     on_fail_event := None; on_cancel_event := None;
     on_timeout_event := None |}.

(** A page with the button 🔄 whose callback advances to the next page. *)
Definition with_button : Page :=
  {| index := 0; title := "Example"; buttons_list := [reload];
     on_next_event := Some advance; on_fail_event := None;
     on_cancel_event := None; on_timeout_event := None |}.

(** The command is invoked in a direct-message channel. *)
Definition user : Z := 7.
Definition channel : Z := 42.

Definition command : Context :=
  {| author_id := user; channel_id := channel;
     message := {| msg_id := 100; in_guild := false; reactions := [] |};
     bot_emojis := [] |}.

Definition quiet : Env :=
  {| sessions := ∅; log := []; remote := ∅; next_id := 1000; api := [];
     hook_calls := [] |}.

(** [ButtonMenu(ctx)] followed by [add_pages(ps)], for the object [r]. *)
Definition fresh (r : nat) (ps : list Page) : St :=
  snd (add_pages ps None {| self := ButtonMenu r command; env := quiet |}).

(** The same with [menu.custom_check = None] assigned, so that the reaction
    sources can read the attribute and use the default validation. *)
Definition menu_of (r : nat) (ps : list Page) : St :=
  {| self := assign_custom_check None (self (fresh r ps));
     env := env (fresh r ps) |}.

(** Pages [P0 (callback, button 🔄); P1 (no callback)]. *)
Definition two_pages : St := menu_of 1 [with_button; blank].

(** The same pages on a menu on which nothing assigned [custom_check]. *)
Definition two_pages_fresh : St := fresh 1 [with_button; blank].

(** Two pages that both carry a callback and a button. *)
Definition hook_on_last : St := menu_of 1 [with_button; with_button].

(** One page. *)
Definition single : St := menu_of 1 [with_button].

(** Three pages, only the first with a callback. *)
Definition one_callback : St := menu_of 1 [with_button; blank; blank].

(** The two-page session once [open] waits for input: page 0 is rendered in
    the message [1000] with the reaction 🔄 on it. *)
Definition waiting : St := snd (open [] two_pages).

(** The owner presses 🔄 on the output message. *)
Definition press : RawReactionActionEvent :=
  {| user_id := user; message_id := 1000;
     emoji := {| pe_id := None; pe_name := "🔄" |} |}.

(** The same session with [set_timeout(60)] called before [open]. *)
Definition two_pages_timed : St :=
  {| self := set_timeout 60 (self two_pages); env := env two_pages |}.

(** A process in which the first menu is open and a second menu object has
    been built for the same user and channel. *)
Definition process : World :=
  {| heap := <[2%nat := self (menu_of 2 [with_button; blank])]>
               {[1%nat := self waiting]};
     shared := env waiting |}.

(** The waiting session moved to its last page by hand, and twelve visits. *)
Definition on_last_page : St :=
  {| self := with_page (getitem (pages (self waiting)) 1) (self waiting);
     env := env waiting |}.

Definition twelve_pages : list Page :=
  map (fun i => set_index i blank) [0; 1; 2; 3; 4; 5; 6; 7; 8; 9; 10; 11].

(** The waiting session after its callback has been run by hand. *)
Definition advanced : St := snd (call_on_next_event waiting).






(** The two pages as the menu holds them, and the output of the waiting
    session. *)
Definition page0 : Page := set_index 0 with_button.
Definition page1 : Page := set_index 1 blank.

Definition shown : Message :=
  {| msg_id := 1000; in_guild := false; reactions := [IsReaction reload] |}.

(** The waiting session on a page that also has [on_cancel], [on_timeout]
    and [on_fail] callbacks. *)
Definition guarded_page : Page :=
  {| index := 0; title := "Example"; buttons_list := [reload];
     on_next_event := Some advance; on_fail_event := Some "failed";
     on_cancel_event := Some "cancelled";
     on_timeout_event := Some "timed_out" |}.

Definition guarded : St :=
  {| self := with_page (Some guarded_page) (self waiting);
     env := env waiting |}.

(** The two-page menu made inactive before it is opened. *)
Definition closed_before : St :=
  {| self := with_active false (self two_pages); env := env two_pages |}.

(** A menu to which no pages were added. *)
Definition empty_menu : St :=
  {| self := ButtonMenu 1 command; env := quiet |}.

(** Two page objects, and a menu that holds no page yet. *)
Definition page_objects : gmap nat Page :=
  <[1%nat := blank]> {[0%nat := with_button]}.

Definition holds_nothing : Objects.Held :=
  {| Objects.held_pages := []; Objects.held_page := None |}.

(** A page with a button that is no emoji, and settings without history. *)
Definition bad_buttons : Page :=
  {| index := 2; title := "bad"; buttons_list := [BStr "x"];
     on_next_event := Some advance; on_fail_event := None;
     on_cancel_event := None; on_timeout_event := None |}.

Definition no_history : Settings :=
  {| HISTORY_CACHE_LIMIT := 0; HIDE_WARNINGS := false;
     UNICODE_EMOJI_ALIAS_ENGLISH :=
       fun s => String.eqb s "🔄" || String.eqb s "❌" |}.

End Scenario.

(** * Properties *)

(** ** Sequencing *)

Lemma bind_ok {A B} (c : M A) (k : A -> M B) (st st' : St) (a : A) :
  c st = (Ok a, st') -> bind c k st = k a st'.
Proof. intros H. unfold bind. now rewrite H. Qed.

Lemma bind_raise {A B} (c : M A) (k : A -> M B) (st st' : St) (e : exn) :
  c st = (Raise e, st') -> bind c k st = (Raise e, st').
Proof. intros H. unfold bind. now rewrite H. Qed.

Lemma current_page_ok (st : St) (p : Page) :
  page (self st) = Some p -> current_page st = (Ok p, st).
Proof. intros H. cbv [current_page bind get_self ret]. now rewrite H. Qed.

Lemma current_output_ok (st : St) (out : Message) :
  output (self st) = Some out -> current_output st = (Ok out, st).
Proof. intros H. cbv [current_output bind get_self ret]. now rewrite H. Qed.

(** One step of a computation whose first action is known by evaluation. *)
Ltac step := erewrite bind_ok by reflexivity.
(** One step whose first action is described by an equation. *)
Ltac step_with H := rewrite (bind_ok _ _ _ _ _ H).
(** Reading attributes of a state that is written out. *)
Ltac tidy :=
  cbn [self env sessions log remote next_id api hook_calls
       with_sessions with_log with_remote with_next_id with_api
       with_hook_calls ref ctx pages page active input output history
       with_pages with_page with_active with_input with_output with_history
       command_message persist _command_message _persist
       msg_id in_guild reactions fst snd] in *.

(** ** Python lists *)

Lemma getitem_second_last {A} (l : list A) (a b : A) :
  getitem (l ++ [a; b]) (-2) = Some a.
Proof.
  unfold getitem. rewrite length_app. cbn [length].
  replace (0 <=? -2) with false by reflexivity. cbn [andb].
  destruct (Z.leb_spec (- Z.of_nat (length l + 2)) (-2)) as [_ | Hlt]; [| lia].
  cbn [andb Z.ltb Z.compare].
  replace (Z.to_nat (Z.of_nat (length l + 2) + -2)) with (length l) by lia.
  rewrite nth_error_app2 by lia. rewrite Nat.sub_diag. reflexivity.
Qed.

Lemma skipn_window {A} (cap : nat) (a b : list A) :
  skipn (length (skipn (length a - cap) a ++ b) - cap)
        (skipn (length a - cap) a ++ b)
  = skipn (length (a ++ b) - cap) (a ++ b).
Proof.
  assert (Hd : (length a - cap <= length a)%nat) by lia.
  replace (skipn (length a - cap) a ++ b)
    with (skipn (length a - cap) (a ++ b)).
  2:{ rewrite skipn_app.
      replace (length a - cap - length a)%nat with 0%nat by lia.
      reflexivity. }
  rewrite skipn_skipn. f_equal.
  rewrite length_skipn, length_app. lia.
Qed.

(** ** History *)

Section History.
Context `{cfg : Settings}.

(** One [update_history] on a history within capacity keeps the newest
    [HISTORY_CACHE_LIMIT] entries of the history extended by the index. *)
Lemma update_history_step (st : St) (p : Page) :
  0 < HISTORY_CACHE_LIMIT ->
  page (self st) = Some p ->
  (length (history (self st)) <= Z.to_nat HISTORY_CACHE_LIMIT)%nat ->
  update_history st
  = (Ok tt,
     {| self := with_history
                  (skipn (length (history (self st) ++ [index p])
                          - Z.to_nat HISTORY_CACHE_LIMIT)
                         (history (self st) ++ [index p]))
                  (self st);
        env := env st |}).
Proof.
  intros Hpos Hp Hlen. destruct st as [m e]. cbn [self env] in *.
  unfold update_history, bind, get_self, current_page. cbn [self env].
  rewrite length_app. cbn [length].
  destruct (Z.leb_spec HISTORY_CACHE_LIMIT (Z.of_nat (length (history m))))
    as [Hfull | Hroom].
  - destruct (history m) as [| x rest] eqn:Hh; cbn [length] in *; [lia |].
    unfold update_self, bind, get_self, ret. cbn. rewrite Hp. cbn.
    replace (S (length rest + 1) - Z.to_nat HISTORY_CACHE_LIMIT)%nat
      with 1%nat by lia.
    reflexivity.
  - unfold ret, update_self, bind, get_self. cbn. rewrite Hp. cbn.
    replace (length (history m) + 1 - Z.to_nat HISTORY_CACHE_LIMIT)%nat
      with 0%nat by lia.
    reflexivity.
Qed.

Lemma last_drop_lt {A} (l : list A) (n : nat) :
  (n < length l)%nat -> last (drop n l) = last l.
Proof.
  intros Hn. rewrite !last_lookup, lookup_drop, length_drop.
  f_equal. lia.
Qed.

Lemma visits_history (ps : list Page) : forall st : St,
  0 < HISTORY_CACHE_LIMIT ->
  (length (history (self st)) <= Z.to_nat HISTORY_CACHE_LIMIT)%nat ->
  exists st',
    visits ps st = (Ok tt, st')
    /\ history (self st')
       = drop (length (history (self st) ++ map index ps)
               - Z.to_nat HISTORY_CACHE_LIMIT)
              (history (self st) ++ map index ps).
Proof.
  induction ps as [| p rest IH]; intros st Hpos Hlen.
  - exists st. split; [reflexivity |]. cbn [map]. rewrite app_nil_r.
    replace (length (history (self st)) - Z.to_nat HISTORY_CACHE_LIMIT)%nat
      with 0%nat by lia.
    reflexivity.
  - pose (st0 := {| self := with_page (Some p) (self st); env := env st |}).
    assert (Hstep := update_history_step st0 p Hpos eq_refl Hlen).
    cbn [self env st0 with_page history] in Hstep.
    match type of Hstep with _ = (_, ?s) => set (st1 := s) in * end.
    destruct (IH st1 Hpos) as (st' & Hrun & Hhist).
    { subst st1. cbn [self with_history history].
      rewrite length_drop. lia. }
    exists st'. split.
    + cbn [visits]. unfold bind at 1. unfold visit, bind at 1, update_self.
      fold st0. rewrite Hstep. exact Hrun.
    + rewrite Hhist. subst st1. cbn [self with_history history].
      rewrite skipn_window. cbn [map]. rewrite <- app_assoc. reflexivity.
Qed.

(** C7.  The history never grows beyond the cache capacity, and it is a
    first-in first-out window.  From a history within capacity, a sequence of
    navigations, each followed by [update_history], succeeds and leaves the
    newest [HISTORY_CACHE_LIMIT] entries of the old history extended by the
    visited indices, in order.  So the length stays within the capacity;
    after capacity + K updates of a fresh menu the K oldest indices are gone
    and the rest is kept; and the newest entry is the index of the page
    visited last. *)
Theorem history_is_bounded_fifo (st : St) (ps : list Page) :
  0 < HISTORY_CACHE_LIMIT ->
  (length (history (self st)) <= Z.to_nat HISTORY_CACHE_LIMIT)%nat ->
  exists st',
    visits ps st = (Ok tt, st')
    /\ history (self st')
       = drop (length (history (self st) ++ map index ps)
               - Z.to_nat HISTORY_CACHE_LIMIT)
              (history (self st) ++ map index ps)
    /\ (length (history (self st')) <= Z.to_nat HISTORY_CACHE_LIMIT)%nat
    /\ (forall K : nat,
          history (self st) = [] ->
          length ps = (Z.to_nat HISTORY_CACHE_LIMIT + K)%nat ->
          history (self st') = drop K (map index ps))
    /\ (forall p : Page,
          last ps = Some p -> last (history (self st')) = Some (index p)).
Proof.
  intros Hpos Hlen.
  destruct (visits_history ps st Hpos Hlen) as (st' & Hrun & Hhist).
  exists st'. split; [exact Hrun |]. split; [exact Hhist |].
  split; [| split].
  - rewrite Hhist, length_drop. lia.
  - intros K Hfresh Hcount. rewrite Hhist, Hfresh. cbn [app].
    rewrite length_map, Hcount. f_equal. lia.
  - intros p Hlast. rewrite Hhist.
    apply last_Some in Hlast as [front ->].
    rewrite map_app. cbn [map]. rewrite app_assoc.
    rewrite last_drop_lt.
    + apply last_snoc.
    + rewrite length_app. cbn [length]. lia.
Qed.

End History.

(** ** Navigation *)

Section Navigation.
Context `{cfg : Settings}.

(** C9.  [last_visited_page] returns the second-most-recent entry of a
    history that holds at least two entries, and 0 when it holds fewer; it
    changes nothing. *)
Theorem last_visited_page_is_second_newest (st : St) :
  (forall (older : list Z) (a b : Z),
      history (self st) = older ++ [a; b] ->
      last_visited_page st = (Ok a, st))
  /\ ((length (history (self st)) < 2)%nat ->
      last_visited_page st = (Ok 0, st)).
Proof.
  split.
  - intros older a b Hh. unfold last_visited_page, bind, get_self.
    rewrite Hh, getitem_second_last, length_app. cbn [length].
    destruct (Z.ltb_spec 1 (Z.of_nat (length older + 2))); [reflexivity | lia].
  - intros Hshort. unfold last_visited_page, bind, get_self.
    destruct (Z.ltb_spec 1 (Z.of_nat (length (history (self st)))));
      [lia | reflexivity].
Qed.

(** C6.  At the last page [next] returns at once, and so does [previous] at
    the first page: no exception, and the whole state (current page, history,
    registry, rendered output) is the one before the call. *)
Theorem navigation_at_bounds_is_noop (st : St) (p : Page) :
  page (self st) = Some p ->
  (index p = Z.of_nat (length (pages (self st))) - 1 -> next st = (Ok tt, st))
  /\ (index p = 0 -> previous st = (Ok tt, st)).
Proof.
  intros Hp. split; intros Hi.
  - cbv [next bind current_page get_self ret]. cbn [self]. rewrite Hp.
    destruct (Z.gtb_spec (index p + 1)
                (Z.of_nat (length (pages (self st))) - 1)); [reflexivity | lia].
  - cbv [previous bind current_page get_self ret]. cbn [self]. rewrite Hp.
    rewrite Hi. reflexivity.
Qed.

End Navigation.

(** ** Validation of reaction events *)




(** ** Validation of the pages and buttons *)

Lemma add_log_nil (st : St) : add_log [] st = st.
Proof.
  destruct st as [m e]. destruct e. unfold add_log, with_log. cbn.
  now rewrite app_nil_r.
Qed.

Lemma add_log_app (l k : list (Level * LogMsg)) (st : St) :
  add_log k (add_log l st) = add_log (l ++ k) st.
Proof.
  unfold add_log, with_log. cbn. now rewrite app_assoc.
Qed.

Section Validation.
Context `{cfg : Settings}.

Lemma check_each_cases (known : list Emoji) (bs : list Button) (st : St) :
  check_each known bs st = (Ok tt, st)
  \/ check_each known bs st = (Raise ButtonsError, st).
Proof.
  induction bs as [| b rest IH]; cbn [check_each].
  - now left.
  - destruct (button_ok known b); [exact IH | now right].
Qed.

Lemma check_each_ok (known : list Emoji) (bs : list Button) (st : St) :
  forallb (button_ok known) bs = true ->
  check_each known bs st = (Ok tt, st).
Proof.
  induction bs as [| b rest IH]; cbn [check_each forallb]; [reflexivity |].
  intros [Hb Hrest]%andb_true_iff. rewrite Hb. now apply IH.
Qed.

(** The loop of [_validate_buttons] only ever appends throttling warnings to
    the log; it ends with the count of callbacks before the first page
    without buttons, or with a [ButtonsError]. *)
Lemma count_callbacks_cases (ps : list Page) : forall (n : Z) (st : St),
  exists l,
    Forall is_warning l
    /\ (count_callbacks ps n st
        = (Ok (n + callbacks_before_gap ps), add_log l st)
        \/ count_callbacks ps n st = (Raise ButtonsError, add_log l st)).
Proof.
  induction ps as [| p rest IH]; intros n st.
  - exists []. split; [constructor |]. left. cbn.
    rewrite add_log_nil, Z.add_0_r. reflexivity.
  - cbn [callbacks_before_gap].
    destruct (buttons_list p) as [| b bs] eqn:Hb.
    + exists []. split; [constructor |]. left.
      cbn [count_callbacks]. rewrite Hb, add_log_nil, Z.add_0_r. reflexivity.
    + set (warn := (5 <? Z.of_nat (length (b :: bs))) && negb HIDE_WARNINGS).
      set (l0 := if warn then [(WARNING, ThrottleWarning)] else []).
      assert (Hl0 : Forall is_warning l0).
      { subst l0. destruct warn; repeat constructor. }
      set (n' := match on_next_event p with
                 | Some _ => n + 1
                 | None => n
                 end).
      assert (Hwarn : (if warn then logging WARNING ThrottleWarning
                       else ret tt) st = (Ok tt, add_log l0 st)).
      { subst l0. destruct warn; [reflexivity |].
        cbv [ret]. now rewrite add_log_nil. }
      assert (Hunfold :
        count_callbacks (p :: rest) n st
        = match check_each (bot_emojis (ctx (self st))) (b :: bs)
                  (add_log l0 st) with
          | (Ok _, s) => count_callbacks rest n' s
          | (Raise e, s) => (Raise e, s)
          end).
      { cbn [count_callbacks]. rewrite Hb.
        destruct (Z.ltb_spec (Z.of_nat (length (b :: bs))) 1) as [Hlt | _];
          [cbn [length] in Hlt; lia |].
        fold warn. unfold bind at 1. rewrite Hwarn.
        unfold bind at 1, _check_buttons, bind at 1, get_self.
        reflexivity. }
      rewrite Hunfold.
      destruct (check_each_cases (bot_emojis (ctx (self st)))
                  (b :: bs) (add_log l0 st)) as [Hok | Hbad].
      * rewrite Hok. destruct (IH n' (add_log l0 st)) as (l & Hl & Hrun).
        exists (l0 ++ l). split; [now apply Forall_app |].
        rewrite <- add_log_app.
        replace (n + ((match on_next_event p with Some _ => 1 | None => 0 end)
                      + callbacks_before_gap rest))
          with (n' + callbacks_before_gap rest)
          by (subst n'; destruct (on_next_event p); lia).
        exact Hrun.
      * rewrite Hbad. exists l0. split; [exact Hl0 |]. now right.
Qed.

Lemma callbacks_before_gap_nonneg (ps : list Page) :
  0 <= callbacks_before_gap ps.
Proof.
  induction ps as [| p rest IH]; cbn [callbacks_before_gap]; [lia |].
  destruct (buttons_list p); [lia |]. destruct (on_next_event p); lia.
Qed.

(** With buttons that all pass [_check_buttons], the loop does not raise. *)
Lemma count_callbacks_valid (ps : list Page) : forall (n : Z) (st : St),
  Forall (fun p => forallb (button_ok (bot_emojis (ctx (self st))))
                     (buttons_list p) = true) ps ->
  fst (count_callbacks ps n st) = Ok (n + callbacks_before_gap ps).
Proof.
  induction ps as [| p rest IH]; intros n st Hvalid.
  - cbn. now rewrite Z.add_0_r.
  - apply Forall_cons in Hvalid as [Hp Hrest].
    cbn [count_callbacks callbacks_before_gap].
    destruct (buttons_list p) as [| b bs] eqn:Hb.
    + cbn. now rewrite Z.add_0_r.
    + destruct (Z.ltb_spec (Z.of_nat (length (b :: bs))) 1) as [Hlt | _];
        [cbn [length] in Hlt; lia |].
      assert (Hwarn : exists l,
                 (if (5 <? Z.of_nat (length (b :: bs))) && negb HIDE_WARNINGS
                  then logging WARNING ThrottleWarning else ret tt) st
                 = (Ok tt, add_log l st)).
      { destruct (_ && _); [now exists [(WARNING, ThrottleWarning)] |].
        exists []. cbv [ret]. now rewrite add_log_nil. }
      destruct Hwarn as [l Hwarn]. step_with Hwarn.
      unfold _check_buttons.
      erewrite (bind_ok (m <- get_self ;; _)).
      2:{ step. cbn [add_log self]. apply check_each_ok. exact Hp. }
      rewrite IH by exact Hrest. f_equal.
      destruct (on_next_event p); lia.
Qed.

(** A session whose buttons are valid, whose current page has no [on_fail]
    callback and which has at least N - 1 callbacks passes validation. *)
Lemma _validate_buttons_accepts (st : St) (p : Page) :
  Forall (fun q => forallb (button_ok (bot_emojis (ctx (self st))))
                     (buttons_list q) = true) (pages (self st)) ->
  page (self st) = Some p ->
  on_fail_event p = None ->
  Z.of_nat (length (pages (self st))) - 1
    <= callbacks_before_gap (pages (self st)) ->
  fst (_validate_buttons st) = Ok tt.
Proof.
  intros Hvalid Hp Hfail Hcount.
  assert (Hloop := count_callbacks_valid (pages (self st)) 0 st Hvalid).
  destruct (count_callbacks_cases (pages (self st)) 0 st) as (l & _ & Hrun).
  destruct Hrun as [Hrun | Hrun]; rewrite Hrun in Hloop; [| discriminate].
  unfold _validate_buttons. step. step_with Hrun.
  erewrite bind_ok by (apply current_page_ok; exact Hp).
  rewrite Hfail, Z.add_0_l.
  destruct (Z.ltb_spec (callbacks_before_gap (pages (self st)))
              (Z.of_nat (length (pages (self st))) - 1)); [lia | reflexivity].
Qed.

(** All outcomes of [_validate_buttons]. *)
Lemma _validate_buttons_cases (st : St) :
  exists l,
    Forall is_warning l
    /\ (_validate_buttons st = (Raise ButtonsError, add_log l st)
        \/ (page (self st) = None
            /\ _validate_buttons st = (Raise AttributeError, add_log l st))
        \/ (exists p,
              page (self st) = Some p
              /\ _validate_buttons st
                 = (match on_fail_event p with
                    | Some _ => Raise EventError
                    | None =>
                        if callbacks_before_gap (pages (self st))
                           <? Z.of_nat (length (pages (self st))) - 1
                        then Raise EventError else Ok tt
                    end, add_log l st))).
Proof.
  assert (Hunfold :
    _validate_buttons st
    = match count_callbacks (pages (self st)) 0 st with
      | (Ok n, s) =>
          match page (self s) with
          | None => (Raise AttributeError, s)
          | Some p =>
              match on_fail_event p with
              | Some _ => (Raise EventError, s)
              | None =>
                  if n <? Z.of_nat (length (pages (self st))) - 1
                  then (Raise EventError, s) else (Ok tt, s)
              end
          end
      | (Raise e, s) => (Raise e, s)
      end).
  { cbv [_validate_buttons bind get_self current_page ret raise].
    destruct (count_callbacks (pages (self st)) 0 st) as [[n | e] s];
      [| reflexivity].
    destruct (page (self s)) as [p |]; [| reflexivity].
    destruct (on_fail_event p); [reflexivity |].
    destruct (n <? _); reflexivity. }
  destruct (count_callbacks_cases (pages (self st)) 0 st) as (l & Hl & Hrun).
  exists l. split; [exact Hl |]. rewrite Hunfold.
  destruct Hrun as [Hrun | Hrun]; rewrite Hrun; [| now left].
  right. cbn [self add_log]. rewrite Z.add_0_l.
  destruct (page (self st)) as [p |] eqn:Hp.
  - right. exists p. split; [reflexivity |].
    destruct (on_fail_event p); [reflexivity |].
    destruct (_ <? _); reflexivity.
  - left. now split.
Qed.

(** When validation raises a configuration error, [open] logs it at level
    [ERROR] and returns; only the log has changed. *)
Lemma open_invalid (script : list (list Completed)) (st st' : St) (e : exn) :
  e = ButtonsError \/ e = EventError ->
  _validate_buttons st = (Raise e, st') ->
  open script st = (Ok Returned, add_log [(ERROR, MessageOf e)] st').
Proof.
  intros He Hrun. unfold open, bind at 1, try, bind at 1. rewrite Hrun.
  destruct He as [-> | ->]; reflexivity.
Qed.

(** C4, as the code has it.  A session with a current page in which fewer
    than N - 1 pages carry an [on_next] callback, counting the pages before
    the first page without buttons, fails validation with a configuration
    error; [open] logs the error and returns, the session neither registered
    nor in the loop, and nothing but the log changed. *)
Theorem missing_callbacks_are_rejected (script : list (list Completed))
  (st : St) (p : Page) :
  page (self st) = Some p ->
  callbacks_before_gap (pages (self st))
    < Z.of_nat (length (pages (self st))) - 1 ->
  rejected_at_open script st
  /\ exists (e : exn) (warnings : list (Level * LogMsg)),
       (e = ButtonsError \/ e = EventError)
       /\ Forall is_warning warnings
       /\ open script st
          = (Ok Returned, add_log (warnings ++ [(ERROR, MessageOf e)]) st).
Proof.
  intros Hp Hfew.
  assert (Hraise : exists e warnings,
             (e = ButtonsError \/ e = EventError)
             /\ Forall is_warning warnings
             /\ _validate_buttons st = (Raise e, add_log warnings st)).
  { destruct (_validate_buttons_cases st) as (l & Hl & Hcases).
    destruct Hcases as [H | [[Hnone _] | (q & Hq & H)]].
    - exists ButtonsError, l. auto.
    - congruence.
    - exists EventError, l. split; [now right |]. split; [exact Hl |].
      rewrite H. destruct (on_fail_event q); [reflexivity |].
      destruct (Z.ltb_spec (callbacks_before_gap (pages (self st)))
                  (Z.of_nat (length (pages (self st))) - 1));
        [reflexivity | lia]. }
  destruct Hraise as (e & warnings & He & Hw & Hrun).
  assert (Hopen := open_invalid script st _ e He Hrun).
  rewrite add_log_app in Hopen. split.
  - exists e. rewrite Hrun, Hopen. cbn [fst snd self env add_log].
    repeat split; auto.
  - exists e, warnings. auto.
Qed.

End Validation.

(** ** The registry *)

Section Registry.
Context `{cfg : Settings}.

Lemma _start_session_taken (st : St) (other : nat) :
  sessions (env st) !! identity (self st) = Some other ->
  _start_session st = (Raise SessionError, st).
Proof.
  intros Htaken. cbv [_start_session bind get_self get_env].
  destruct (decide (identity (self st) ∈ dom (sessions (env st))))
    as [_ | Hfree]; [reflexivity |].
  apply not_elem_of_dom in Hfree. congruence.
Qed.

Lemma _start_session_free (st : St) :
  sessions (env st) !! identity (self st) = None ->
  _start_session st
  = (Ok true,
     {| self := self st;
        env := with_sessions
                 (<[identity (self st) := ref (self st)]> (sessions (env st)))
                 (env st) |}).
Proof.
  intros Hfree. cbv [_start_session bind get_self get_env].
  destruct (decide (identity (self st) ∈ dom (sessions (env st))))
    as [Htaken | _]; [| reflexivity].
  apply elem_of_dom in Htaken as [other Hother]. congruence.
Qed.

(** [open] on a menu whose identity is registered already: validation has
    passed, [_start_session] raises, the error is logged at level [INFO], and
    [open] returns without having touched the menu, the registry or the
    platform. *)
Lemma open_duplicate (script : list (list Completed)) (st : St) (other : nat) :
  pages (self st) <> [] ->
  sessions (env st) !! identity (self st) = Some other ->
  fst (_validate_buttons st) = Ok tt ->
  exists warnings,
    Forall is_warning warnings
    /\ open script st
       = (Ok Returned,
          add_log (warnings ++ [(INFO, MessageOf SessionError)]) st).
Proof.
  intros Hpages Htaken Hvalid.
  destruct (_validate_buttons_cases st) as (l & Hl & Hcases).
  assert (Hrun : _validate_buttons st = (Ok tt, add_log l st)).
  { destruct Hcases as [H | [[_ H] | (p & _ & H)]];
      rewrite H in Hvalid |- *; cbn [fst] in Hvalid; try discriminate.
    now rewrite Hvalid. }
  exists l. split; [exact Hl |].
  assert (Hopen : _open (add_log l st) = (Raise SessionError, add_log l st)).
  { unfold _open, bind at 1, get_self. cbn [self add_log].
    destruct (pages (self st)) as [| p0 ps]; [contradiction |].
    unfold bind at 1.
    now rewrite (_start_session_taken (add_log l st) other). }
  unfold open, bind at 1, try, bind at 1. rewrite Hrun, Hopen.
  unfold bind, logging, update_env, ret. cbn [self env add_log].
  rewrite <- add_log_app. reflexivity.
Qed.

(** C3.  The registry holds at most one session per identity.  Registering
    an identity that is already mapped raises [SessionError] and changes
    nothing; registering a free identity succeeds and maps it to the menu.
    A second [open] for a registered identity returns normally, having only
    written log records (the last one at level [INFO]): the registry and
    every menu object of the process, the first session among them, are as
    before, and the loop is not entered. *)
Theorem registry_admits_one_session_per_identity :
  (forall (st : St) (first : nat),
      sessions (env st) !! identity (self st) = Some first ->
      _start_session st = (Raise SessionError, st))
  /\ (forall st : St,
        sessions (env st) !! identity (self st) = None ->
        exists st',
          _start_session st = (Ok true, st')
          /\ self st' = self st
          /\ sessions (env st') !! identity (self st) = Some (ref (self st))
          /\ forall other : Z * Z,
               other <> identity (self st) ->
               sessions (env st') !! other = sessions (env st) !! other)
  /\ (forall (w : World) (first second : nat) (m : Menu)
             (script : list (list Completed)),
        heap w !! second = Some m ->
        sessions (shared w) !! identity m = Some first ->
        pages m <> [] ->
        fst (_validate_buttons {| self := m; env := shared w |}) = Ok tt ->
        exists warnings,
          Forall is_warning warnings
          /\ open_in second script w
             = (Some (Ok Returned),
                {| heap := heap w;
                   shared :=
                     with_log
                       (log (shared w)
                        ++ warnings ++ [(INFO, MessageOf SessionError)])
                       (shared w) |})).
Proof.
  split; [| split].
  - intros st first. apply _start_session_taken.
  - intros st Hfree. eexists. split; [now apply _start_session_free |].
    cbn [self env with_sessions sessions]. split; [reflexivity |]. split.
    + apply lookup_insert_eq.
    + intros other Hother. now apply lookup_insert_ne.
  - intros w first second m script Hm Hfirst Hpages Hvalid.
    destruct (open_duplicate script {| self := m; env := shared w |} first
                Hpages Hfirst Hvalid) as (warnings & Hw & Hrun).
    exists warnings. split; [exact Hw |].
    unfold open_in. rewrite Hm, Hrun. cbn [self env add_log].
    now rewrite insert_id.
Qed.

End Registry.

(** ** Opening a session *)

Section Opening.
Context `{cfg : Settings}.

Lemma update_history_runs (st : St) (p : Page) :
  0 < HISTORY_CACHE_LIMIT ->
  page (self st) = Some p ->
  exists h,
    update_history st
    = (Ok tt, {| self := with_history h (self st); env := env st |}).
Proof.
  intros Hpos Hp. unfold update_history. step.
  destruct (Z.leb_spec HISTORY_CACHE_LIMIT
              (Z.of_nat (length (history (self st))))) as [Hfull | Hroom].
  - destruct (history (self st)) as [| x rest] eqn:Hh; cbn [length] in *;
      [lia |].
    step. erewrite bind_ok by (apply current_page_ok; exact Hp).
    eexists. reflexivity.
  - step. step_with (current_page_ok st p Hp).
    eexists. reflexivity.
Qed.

Lemma add_reactions_runs (bs : list Button) : forall (st : St) (out : Message),
  output (self st) = Some out ->
  exists e',
    add_reactions bs st = (Ok tt, {| self := self st; env := e' |})
    /\ sessions e' = sessions (env st)
    /\ (is_Some (remote (env st) !! msg_id out)
        -> is_Some (remote e' !! msg_id out)).
Proof.
  induction bs as [| b rest IH]; intros st out Hout.
  - exists (env st). destruct st. cbn. auto.
  - cbn [add_reactions]. step_with (current_output_ok st out Hout).
    step.
    match goal with |- context [add_reactions rest ?s] =>
      destruct (IH s out Hout) as (e' & Hrun & Hsess & Hremote)
    end.
    exists e'. split; [exact Hrun |]. split; [exact Hsess |].
    intros Hsome. apply Hremote. cbn [env remote with_api with_remote].
    rewrite lookup_alter_eq. destruct Hsome as [r ->]. cbn. eauto.
Qed.

Lemma api_fetch_message_ok (st : St) (id : Z) (msg : Message) :
  remote (env st) !! id = Some msg ->
  api_fetch_message id st
  = (Ok msg,
     {| self := self st;
        env := with_api (api (env st) ++ [FetchMessage id]) (env st) |}).
Proof.
  intros Hheld. unfold api_fetch_message. repeat step. tidy.
  now rewrite Hheld.
Qed.

Lemma _add_buttons_runs (st : St) (p : Page) (out : Message) :
  page (self st) = Some p ->
  output (self st) = Some out ->
  exists e',
    _add_buttons st = (Ok tt, {| self := self st; env := e' |})
    /\ sessions e' = sessions (env st)
    /\ (is_Some (remote (env st) !! msg_id out)
        -> is_Some (remote e' !! msg_id out)).
Proof.
  intros Hp Hout. unfold _add_buttons. step_with (current_page_ok st p Hp).
  now apply add_reactions_runs.
Qed.

(** [_open] on a menu with pages whose identity is free: the session is
    registered, the first page is sent, and the output is a message the
    platform holds. *)
Lemma _open_runs (st : St) (p : Page) :
  0 < HISTORY_CACHE_LIMIT ->
  pages (self st) <> [] ->
  page (self st) = Some p ->
  sessions (env st) !! identity (self st) = None ->
  msg_id (message (ctx (self st))) <> next_id (env st) ->
  exists m' e',
    _open st = (Ok tt, {| self := m'; env := e' |})
    /\ active m' = active (self st)
    /\ page m' = Some p
    /\ ctx m' = ctx (self st)
    /\ ref m' = ref (self st)
    /\ sessions e'
       = <[identity (self st) := ref (self st)]> (sessions (env st))
    /\ exists out, output m' = Some out /\ is_Some (remote e' !! msg_id out).
Proof.
  intros Hpos Hpages Hp Hfree Hfresh.
  unfold _open. step.
  destruct (pages (self st)) as [| q qs]; [contradiction |].
  step_with (_start_session_free st Hfree).
  erewrite bind_ok by (apply current_page_ok; exact Hp).
  unfold api_send. repeat step. tidy.
  match goal with |- context [bind update_history _ ?s] =>
    destruct (update_history_runs s p Hpos Hp) as [h Hh];
    step_with Hh
  end.
  clear Hh. tidy. unfold _cleanup_input. step. tidy.
  destruct (_command_message (self st)); cbn [negb];
    [| destruct (in_guild (message (ctx (self st))))];
    try (unfold api_delete; step);
    (do 2 eexists; split; [reflexivity |]; tidy;
     repeat (split; [first [reflexivity | exact Hp] |]);
     eexists; split; [reflexivity |]; tidy);
    rewrite ?lookup_delete_ne by done; rewrite lookup_insert_eq; eauto.
Qed.

(** A menu that passes validation, has pages and a free identity is
    registered by [open], which then stays in its loop waiting for input. *)
Lemma open_enters_loop (st : St) (p : Page) :
  0 < HISTORY_CACHE_LIMIT ->
  fst (_validate_buttons st) = Ok tt ->
  pages (self st) <> [] ->
  page (self st) = Some p ->
  active (self st) = true ->
  sessions (env st) !! identity (self st) = None ->
  msg_id (message (ctx (self st))) <> next_id (env st) ->
  exists st',
    open [] st = (Ok Awaiting, st')
    /\ active (self st') = true
    /\ page (self st') = Some p
    /\ sessions (env st') !! identity (self st) = Some (ref (self st)).
Proof.
  intros Hpos Hvalid Hpages Hp Hactive Hfree Hfresh.
  destruct (_validate_buttons_cases st) as (l & Hl & Hcases).
  assert (Hrun : _validate_buttons st = (Ok tt, add_log l st)).
  { destruct Hcases as [H | [[_ H] | (q & _ & H)]];
      rewrite H in Hvalid |- *; cbn [fst] in Hvalid; try discriminate.
    now rewrite Hvalid. }
  destruct (_open_runs (add_log l st) p Hpos Hpages Hp Hfree Hfresh)
    as (m' & e' & Hopen & Hact & Hpage & Hctx & Href & Hsess & out & Hout
        & Hheld).
  unfold add_log in Hact, Hctx, Href, Hsess. tidy.
  assert (Htry : try (_validate_buttons ;; _open) st
                 = (Ok (Ok tt), {| self := m'; env := e' |})).
  { unfold try. rewrite (bind_ok _ _ _ _ _ Hrun). fold (add_log l st).
    now rewrite Hopen. }
  unfold open. step_with Htry.
  destruct (_add_buttons_runs {| self := m'; env := e' |} p out Hpage Hout)
    as (e'' & Hadd & Hsess' & Hheld').
  step_with Hadd. tidy. specialize (Hheld' Hheld) as [fetched Hfetched].
  cbn [main_loop]. step. tidy. rewrite Hact, Hactive. cbn [negb]. step.
  erewrite bind_ok by (apply current_output_ok; exact Hout).
  step_with (api_fetch_message_ok {| self := m'; env := e'' |} _ _ Hfetched).
  repeat step. eexists. split; [reflexivity |]. tidy.
  split; [congruence |]. split; [exact Hpage |].
  rewrite Hsess', Hsess. apply lookup_insert_eq.
Qed.

(** C5, as the code has it.  Only an empty page list is refused:
    [add_pages] raises [PagesError] on it and adds nothing.  A session with
    exactly one page, whose buttons are valid and which has no [on_fail]
    callback, passes validation; [open] registers it and enters the loop,
    where the session is active and waits for input. *)
Theorem one_page_session_is_accepted :
  (forall (st : St) (template : option (Page -> Page)),
      add_pages [] template st = (Raise PagesError, st))
  /\ (forall (st : St) (p : Page),
        0 < HISTORY_CACHE_LIMIT ->
        pages (self st) = [p] ->
        page (self st) = Some p ->
        on_fail_event p = None ->
        forallb (button_ok (bot_emojis (ctx (self st)))) (buttons_list p)
          = true ->
        active (self st) = true ->
        sessions (env st) !! identity (self st) = None ->
        msg_id (message (ctx (self st))) <> next_id (env st) ->
        fst (_validate_buttons st) = Ok tt
        /\ exists st',
             open [] st = (Ok Awaiting, st')
             /\ active (self st') = true
             /\ sessions (env st') !! identity (self st)
                = Some (ref (self st))).
Proof.
  split.
  - intros st template. reflexivity.
  - intros st p Hpos Hpages Hp Hfail Hbuttons Hactive Hfree Hfresh.
    assert (Hvalid : fst (_validate_buttons st) = Ok tt).
    { apply (_validate_buttons_accepts st p); auto.
      - rewrite Hpages. constructor; [exact Hbuttons | constructor].
      - rewrite Hpages. cbn [length].
        pose proof (callbacks_before_gap_nonneg [p]). lia. }
    split; [exact Hvalid |].
    destruct (open_enters_loop st p) as (st' & Hrun & Hact & _ & Hsess);
      auto.
    + rewrite Hpages. discriminate.
    + exists st'. auto.
Qed.

End Opening.

(** ** The input racer and the loop *)

Lemma silent_ret {A} (a : A) : silent (ret a).
Proof. intros st. reflexivity. Qed.

Lemma silent_raise {A} (e : exn) : silent (@raise A e).
Proof. intros st. reflexivity. Qed.

Lemma silent_bind_on {A B} (c : M A) (k : A -> M B) :
  silent c ->
  (forall a st st',
      c st = (Ok a, st') ->
      hook_calls (env (snd (k a st'))) = hook_calls (env st')) ->
  silent (bind c k).
Proof.
  intros Hc Hk st. unfold bind. specialize (Hc st).
  destruct (c st) as [[a | e] st'] eqn:Hrun; cbn [snd] in *.
  - rewrite (Hk a st st' Hrun). exact Hc.
  - exact Hc.
Qed.

Lemma silent_bind {A B} (c : M A) (k : A -> M B) :
  silent c -> (forall a, silent (k a)) -> silent (bind c k).
Proof. intros Hc Hk. apply silent_bind_on; [exact Hc |]. intros. apply Hk. Qed.

Lemma silent_get_self : silent get_self.
Proof. intros st. reflexivity. Qed.

Lemma silent_get_env : silent get_env.
Proof. intros st. reflexivity. Qed.

Lemma silent_update_self (f : Menu -> Menu) : silent (update_self f).
Proof. intros st. reflexivity. Qed.

Lemma silent_record_call (c : ApiCall) : silent (record_call c).
Proof. intros st. reflexivity. Qed.

Lemma silent_current_page : silent current_page.
Proof.
  apply silent_bind; [apply silent_get_self |]. intros m.
  destruct (page m); [apply silent_ret | apply silent_raise].
Qed.

Lemma silent_current_output : silent current_output.
Proof.
  apply silent_bind; [apply silent_get_self |]. intros m.
  destruct (output m); [apply silent_ret | apply silent_raise].
Qed.

Lemma silent_last_visited_page : silent last_visited_page.
Proof.
  apply silent_bind; [apply silent_get_self |]. intros m.
  destruct (1 <? _); [| apply silent_ret].
  destruct (getitem _ _); [apply silent_ret | apply silent_raise].
Qed.

Lemma silent_api_add_reaction (msg : Message) (b : Button) :
  silent (api_add_reaction msg b).
Proof.
  apply silent_bind; [| intros; apply silent_record_call].
  intros st. reflexivity.
Qed.

Lemma silent__add_buttons : silent _add_buttons.
Proof.
  apply silent_bind; [apply silent_current_page |]. intros p.
  induction (buttons_list p) as [| b rest IH]; cbn [add_reactions].
  - apply silent_ret.
  - apply silent_bind; [apply silent_current_output |]. intros out.
    apply silent_bind; [apply silent_api_add_reaction |]. intros _.
    exact IH.
Qed.

Lemma silent_api_fetch_message (id : Z) : silent (api_fetch_message id).
Proof.
  apply silent_bind; [apply silent_record_call |]. intros _.
  apply silent_bind; [apply silent_get_env |]. intros e.
  destruct (remote e !! id); [apply silent_ret | apply silent_raise].
Qed.

Lemma silent_call__timeout : silent call__timeout.
Proof.
  apply silent_bind; [apply silent_get_self |]. intros m.
  destruct (_timeout m); apply silent_raise.
Qed.

Lemma silent_result (future : Completed) : silent (result future).
Proof.
  assert (Hemoji : forall ev, silent (_get_emoji ev)).
  { intros ev. apply silent_bind; [apply silent_current_page |].
    intros p. apply silent_ret. }
  assert (Hsource : forall delivered, silent (_get_reaction_add delivered)).
  { intros delivered. apply silent_bind; [apply silent_get_self |].
    intros m. destruct (reaction_check m); [| apply silent_raise].
    destruct delivered as [ev |]; [apply Hemoji |].
    apply silent_bind; [apply silent_call__timeout |].
    intros _. apply silent_ret. }
  destruct future as [delivered | delivered |]; cbn [result].
  - apply Hsource.
  - apply Hsource.
  - apply silent_ret.
Qed.

Lemma silent__get_input (done : list Completed) : silent (_get_input done).
Proof.
  destruct done as [| future rest]; cbn [_get_input].
  - apply silent_bind; [apply silent_call__timeout |].
    intros _. apply silent_ret.
  - apply silent_bind; [apply silent_result |]. intros [b |].
    + destruct (button_truthy b); [| apply silent_ret].
      apply silent_bind; [apply silent_update_self |].
      intros _. apply silent_ret.
    + apply silent_ret.
Qed.

(** Whatever the racing tasks have met, [_get_input] hands nothing back to
    its caller: when it returns, it returns [None]. *)
Lemma _get_input_returns_nothing (done : list Completed) (st st' : St)
  (v : InputVal) :
  _get_input done st = (Ok v, st') -> v = INone.
Proof.
  destruct done as [| future rest]; cbn [_get_input]; unfold bind.
  - destruct (call__timeout st) as [[[] | e] s]; cbv [ret]; congruence.
  - destruct (result future st) as [[[b |] | e] s]; cbv [ret];
      try congruence.
    destruct (button_truthy b); cbv [update_self]; congruence.
Qed.

(** With all three tasks still pending, [_get_input] raises: the timeout
    protocol [_execute_timeout] is not what [self._timeout()] reaches. *)
Lemma _get_input_all_pending (st : St) :
  _get_input [] st
  = (Raise match _timeout (self st) with
           | None => AttributeError
           | Some _ => TypeError
           end, st).
Proof.
  cbv [_get_input call__timeout bind get_self raise].
  destruct (_timeout (self st)); reflexivity.
Qed.

Section Loop.
Context `{cfg : Settings}.

Lemma silent_update_history : silent update_history.
Proof.
  apply silent_bind; [apply silent_get_self |]. intros m.
  apply silent_bind.
  - destruct (_ <=? _); [| apply silent_ret].
    destruct (history m); [apply silent_raise | apply silent_update_self].
  - intros _. apply silent_bind; [apply silent_current_page |].
    intros p. apply silent_update_self.
Qed.

Lemma silent__validate_buttons : silent _validate_buttons.
Proof.
  assert (Hloop : forall ps n, silent (count_callbacks ps n)).
  { induction ps as [| p rest IH]; intros n; cbn [count_callbacks].
    - apply silent_ret.
    - destruct (buttons_list p) as [| b bs]; [apply silent_ret |].
      destruct (_ <? 1); [apply silent_raise |].
      apply silent_bind.
      + destruct (_ && _); [| apply silent_ret]. intros st. reflexivity.
      + intros _. apply silent_bind; [| intros _; apply IH].
        apply silent_bind; [apply silent_get_self |]. intros m.
        induction (b :: bs) as [| x xs IHx]; cbn [check_each].
        * apply silent_ret.
        * destruct (button_ok _ x); [exact IHx | apply silent_raise]. }
  apply silent_bind; [apply silent_get_self |]. intros m.
  apply silent_bind; [apply Hloop |]. intros n.
  apply silent_bind; [apply silent_current_page |]. intros cur.
  destruct (on_fail_event cur); [apply silent_raise |].
  destruct (_ <? _); [apply silent_raise | apply silent_ret].
Qed.

Lemma silent__open : silent _open.
Proof.
  apply silent_bind; [apply silent_get_self |]. intros m.
  destruct (pages m) as [| q qs]; [apply silent_ret |].
  apply silent_bind.
  { apply silent_bind; [apply silent_get_self |]. intros m'.
    apply silent_bind; [apply silent_get_env |]. intros e.
    destruct (decide _); [apply silent_raise |].
    apply silent_bind; [| intros; apply silent_ret].
    intros st. reflexivity. }
  intros _. apply silent_bind; [apply silent_current_page |]. intros p.
  apply silent_bind.
  { apply silent_bind; [apply silent_get_self |]. intros m'.
    apply silent_bind; [apply silent_get_env |]. intros e.
    apply silent_bind; [intros st; reflexivity |]. intros _.
    apply silent_bind; [apply silent_record_call |]. intros _.
    apply silent_ret. }
  intros msg. apply silent_bind; [apply silent_update_self |]. intros _.
  apply silent_bind; [apply silent_update_self |]. intros _.
  apply silent_bind; [apply silent_update_history |]. intros _.
  apply silent_bind; [apply silent_get_self |]. intros m'.
  destruct (negb _); [| apply silent_ret].
  destruct (input m'); try apply silent_raise.
  destruct (in_guild _); [| apply silent_ret].
  apply silent_bind; [intros st; reflexivity |].
  intros _. apply silent_record_call.
Qed.

(** No iteration of the loop reaches the [on_next] callback: the value the
    loop tests is the one [_get_input] returned. *)
Lemma silent_main_loop (script : list (list Completed)) :
  forall _first_iter : bool, silent (main_loop _first_iter script).
Proof.
  induction script as [| done rest IH]; intros _first_iter;
    cbn [main_loop];
    (apply silent_bind; [apply silent_get_self |]; intros m;
     destruct (negb (active m)); [apply silent_ret |];
     apply silent_bind;
     [ destruct (negb _first_iter); [| apply silent_ret];
       apply silent_bind; [apply silent_last_visited_page |]; intros visited;
       apply silent_bind; [apply silent_current_page |]; intros p;
       destruct (negb _); [apply silent__add_buttons |];
       apply silent_bind; [apply silent_current_output |]; intros out;
       destruct (in_guild out); [| apply silent_ret];
       apply silent_bind; [apply silent_get_self |]; intros m';
       apply silent_record_call
     | intros _ ];
     apply silent_bind; [apply silent_current_output |]; intros out;
     apply silent_bind; [apply silent_api_fetch_message |]; intros fetched;
     apply silent_bind; [apply silent_update_self |]; intros _).
  - apply silent_ret.
  - apply silent_bind_on; [apply silent__get_input |].
    intros got st st' Hgot.
    apply _get_input_returns_nothing in Hgot. subst got.
    repeat step.
    exact (IH false {| self := with_input INone (self st'); env := env st' |}).
Qed.

(** [open] never invokes a callback of a page, whatever the platform
    delivers. *)
Lemma silent_open (script : list (list Completed)) : silent (open script).
Proof.
  apply silent_bind.
  - intros st. unfold try.
    pose proof (silent_bind _ _ silent__validate_buttons
                  (fun _ => silent__open) st) as H.
    destruct ((_validate_buttons ;; _open) st). exact H.
  - intros [[] | e].
    + apply silent_bind; [apply silent__add_buttons |].
      intros _. apply silent_main_loop.
    + destruct e; try apply silent_raise;
        (apply silent_bind; [intros st; reflexivity |];
         intros _; apply silent_ret).
Qed.

End Loop.

(** ** Rendering and closing *)

Section Closing.
Context `{cfg : Settings}.

Lemma send_message_runs (c : Content) (st : St) (out : Message) :
  output (self st) = Some out ->
  send_message c st = (Ok tt, rendered c out st).
Proof.
  intros Hout. unfold send_message, rendered.
  step_with (current_output_ok st out Hout).
  destruct (in_guild out); [reflexivity |].
  unfold api_delete, api_send. repeat step. reflexivity.
Qed.

Lemma close_session_registered (st : St) (r : nat) :
  sessions (env st) !! identity (self st) = Some r ->
  close_session st
  = (Ok tt,
     {| self := with_active false (self st);
        env := with_sessions (delete (identity (self st)) (sessions (env st)))
                 (env st) |}).
Proof.
  intros Hreg. cbv [close_session bind get_self get_env].
  destruct (decide (identity (self st) ∈ dom (sessions (env st))))
    as [_ | Hfree]; [reflexivity |].
  apply not_elem_of_dom in Hfree. congruence.
Qed.

Lemma close_session_absent (st : St) :
  sessions (env st) !! identity (self st) = None ->
  close_session st = (Raise KeyError, st).
Proof.
  intros Hfree. cbv [close_session bind get_self get_env].
  destruct (decide (identity (self st) ∈ dom (sessions (env st))))
    as [Hreg | _]; [| reflexivity].
  apply elem_of_dom in Hreg as [r Hr]. congruence.
Qed.

(** [update_history] always ends with the index of the current page as the
    newest entry. *)
Lemma update_history_newest (st : St) (p : Page) :
  0 < HISTORY_CACHE_LIMIT ->
  page (self st) = Some p ->
  exists h,
    update_history st
    = (Ok tt, {| self := with_history h (self st); env := env st |})
    /\ last h = Some (index p).
Proof.
  intros Hpos Hp. unfold update_history. step.
  destruct (Z.leb_spec HISTORY_CACHE_LIMIT
              (Z.of_nat (length (history (self st))))) as [Hfull | Hroom].
  - destruct (history (self st)) as [| x rest] eqn:Hh; cbn [length] in *;
      [lia |].
    step. erewrite bind_ok by (apply current_page_ok; exact Hp).
    eexists. split; [reflexivity |]. apply last_snoc.
  - step. step_with (current_page_ok st p Hp).
    eexists. split; [reflexivity |]. apply last_snoc.
Qed.

(** What [rendered] keeps and what it leaves as the last platform call. *)
Lemma rendered_keeps (c : Content) (out : Message) (st : St) :
  output (self st) = Some out ->
  page (self (rendered c out st)) = page (self st)
  /\ pages (self (rendered c out st)) = pages (self st)
  /\ active (self (rendered c out st)) = active (self st)
  /\ history (self (rendered c out st)) = history (self st)
  /\ ctx (self (rendered c out st)) = ctx (self st)
  /\ sessions (env (rendered c out st)) = sessions (env st)
  /\ hook_calls (env (rendered c out st)) = hook_calls (env st)
  /\ log (env (rendered c out st)) = log (env st)
  /\ is_Some (output (self (rendered c out st)))
  /\ last (api (env (rendered c out st)))
     = Some (if in_guild out then Edit (msg_id out) c
             else Send (next_id (env st)) c).
Proof.
  intros Hout. unfold rendered. destruct (in_guild out); tidy;
    repeat (split; [first [reflexivity | eauto] |]);
    apply last_snoc.
Qed.

(** [_post_next] on a page with a callback: history and rendering only. *)
Lemma _post_next_continues (st : St) (p : Page) (h0 : Hook) (out : Message) :
  0 < HISTORY_CACHE_LIMIT ->
  page (self st) = Some p ->
  on_next_event p = Some h0 ->
  output (self st) = Some out ->
  exists h,
    last h = Some (index p)
    /\ _post_next st
       = (Ok tt,
          rendered (PageEmbed p) out
            {| self := with_history h (self st); env := env st |}).
Proof.
  intros Hpos Hp Hnext Hout. unfold _post_next.
  step_with (current_page_ok st p Hp). rewrite Hnext. step.
  destruct (update_history_newest st p Hpos Hp) as (h & Hrun & Hlast).
  exists h. split; [exact Hlast |]. step_with Hrun.
  erewrite bind_ok by (apply current_page_ok; exact Hp).
  now apply send_message_runs.
Qed.

(** [_post_next] on a page without callback: the session is closed first. *)
Lemma _post_next_closes (st : St) (p : Page) (out : Message) (r : nat) :
  0 < HISTORY_CACHE_LIMIT ->
  page (self st) = Some p ->
  on_next_event p = None ->
  output (self st) = Some out ->
  sessions (env st) !! identity (self st) = Some r ->
  exists h,
    last h = Some (index p)
    /\ _post_next st
       = (Ok tt,
          rendered (PageEmbed p) out
            {| self := with_history h (with_active false (self st));
               env := with_sessions
                        (delete (identity (self st)) (sessions (env st)))
                        (env st) |}).
Proof.
  intros Hpos Hp Hnext Hout Hreg. unfold _post_next.
  step_with (current_page_ok st p Hp). rewrite Hnext.
  erewrite (bind_ok (close_session ;; _)).
  2:{ step_with (close_session_registered st r Hreg). reflexivity. }
  match goal with |- context [bind update_history _ ?s] =>
    destruct (update_history_newest s p Hpos Hp) as (h & Hrun & Hlast);
    step_with Hrun
  end.
  exists h. split; [exact Hlast |].
  erewrite bind_ok by (apply current_page_ok; exact Hp).
  now apply send_message_runs.
Qed.

Lemma _post_next_unregistered (st : St) (p : Page) :
  page (self st) = Some p ->
  on_next_event p = None ->
  sessions (env st) !! identity (self st) = None ->
  _post_next st = (Raise KeyError, st).
Proof.
  intros Hp Hnext Hfree. unfold _post_next.
  step_with (current_page_ok st p Hp). rewrite Hnext.
  apply bind_raise. apply bind_raise. now apply close_session_absent.
Qed.

(** Making [q] the current page and running [_post_next]. *)
Lemma move_arrives (st : St) (q : Page) (out : Message) :
  0 < HISTORY_CACHE_LIMIT ->
  output (self st) = Some out ->
  arrives_at q out st
    ((update_self (with_page (Some q)) ;; _post_next) st).
Proof.
  intros Hpos Hout. step. unfold arrives_at.
  set (st1 := {| self := with_page (Some q) (self st); env := env st |}).
  destruct (on_next_event q) as [h0 |] eqn:Hnext.
  - destruct (_post_next_continues st1 q h0 out Hpos eq_refl Hnext Hout)
      as (h & Hlast & Hrun).
    rewrite Hrun. cbn [fst snd].
    match goal with |- context [rendered ?c out ?s] =>
      destruct (rendered_keeps c out s Hout)
        as (Hpage & Hpages & Hact & Hhist & _ & Hsess & _ & _ & Hsome
            & Hshown)
    end.
    rewrite Hpage, Hpages, Hact, Hhist, Hsess, Hshown. subst st1. tidy.
    repeat apply conj; auto.
  - destruct (sessions (env st) !! identity (self st)) as [r |] eqn:Hreg.
    + destruct (_post_next_closes st1 q out r Hpos eq_refl Hnext Hout Hreg)
        as (h & Hlast & Hrun).
      rewrite Hrun. cbn [fst snd].
      match goal with |- context [rendered ?c out ?s] =>
        destruct (rendered_keeps c out s Hout)
          as (Hpage & Hpages & Hact & Hhist & _ & Hsess & _ & _ & Hsome
              & Hshown)
      end.
      rewrite Hpage, Hpages, Hact, Hhist, Hsess, Hshown. subst st1. tidy.
      repeat apply conj; auto.
    + apply (_post_next_unregistered st1 q); auto.
Qed.

(** The output, the platform calls and the next message id after
    [rendered]. *)
Lemma rendered_writes (c : Content) (out : Message) (st : St) :
  output (self st) = Some out ->
  output (self (rendered c out st))
  = Some (if in_guild out then out
          else {| msg_id := next_id (env st);
                  in_guild := dest_in_guild (destination (self st));
                  reactions := [] |})
  /\ api (env (rendered c out st))
     = api (env st)
       ++ (if in_guild out then [Edit (msg_id out) c]
           else [Delete (msg_id out); Send (next_id (env st)) c])
  /\ next_id (env (rendered c out st))
     = (if in_guild out then next_id (env st) else next_id (env st) + 1)
  /\ destination (self (rendered c out st)) = destination (self st).
Proof.
  intros Hout. unfold rendered. destruct (in_guild out); tidy.
  - auto.
  - rewrite <- app_assoc. auto.
Qed.

(** [_post_next] where it goes through: the page is rendered from a state
    [base] that differs from [st] in the history, and in [active] and the
    registry when the page has no callback. *)
Lemma _post_next_runs (st : St) (p : Page) (out : Message) :
  0 < HISTORY_CACHE_LIMIT ->
  page (self st) = Some p ->
  output (self st) = Some out ->
  is_Some (on_next_event p)
  \/ is_Some (sessions (env st) !! identity (self st)) ->
  exists base,
    _post_next st = (Ok tt, rendered (PageEmbed p) out base)
    /\ last (history (self base)) = Some (index p)
    /\ page (self base) = Some p
    /\ pages (self base) = pages (self st)
    /\ output (self base) = Some out
    /\ active (self base)
       = match on_next_event p with
         | Some _ => active (self st)
         | None => false
         end
    /\ destination (self base) = destination (self st)
    /\ api (env base) = api (env st)
    /\ next_id (env base) = next_id (env st).
Proof.
  intros Hpos Hp Hout Hopen.
  destruct (on_next_event p) as [h0 |] eqn:Hnext.
  - destruct (_post_next_continues st p h0 out Hpos Hp Hnext Hout)
      as (h & Hlast & Hrun).
    eexists. split; [exact Hrun |]. tidy. repeat apply conj; auto.
  - destruct (sessions (env st) !! identity (self st)) as [r |] eqn:Hreg.
    + destruct (_post_next_closes st p out r Hpos Hp Hnext Hout Hreg)
        as (h & Hlast & Hrun).
      eexists. split; [exact Hrun |]. tidy. repeat apply conj; auto.
    + destruct Hopen as [[? ?] | [? ?]]; discriminate.
Qed.

End Closing.

(** ** Navigation between pages *)

Lemma nth_error_lookup {A} (l : list A) (i : nat) : nth_error l i = l !! i.
Proof.
  revert i. induction l as [| x l IH]; intros [| i]; cbn; auto.
Qed.

Lemma getitem_out_of_range {A} (l : list A) (i : Z) :
  i < - Z.of_nat (length l) \/ Z.of_nat (length l) <= i ->
  getitem l i = None.
Proof.
  intros Hi. unfold getitem.
  destruct (Z.leb_spec 0 i), (Z.ltb_spec i (Z.of_nat (length l)));
    cbn [andb]; try lia; try reflexivity;
    destruct (Z.leb_spec (- Z.of_nat (length l)) i), (Z.ltb_spec i 0);
    cbn [andb]; try lia; reflexivity.
Qed.

Lemma getitem_first {A} (l : list A) : getitem l 0 = head l.
Proof.
  unfold getitem. destruct l as [| x l]; [reflexivity |].
  cbn [length]. replace (0 <=? 0) with true by reflexivity.
  destruct (Z.ltb_spec 0 (Z.of_nat (S (length l)))); [reflexivity | lia].
Qed.

Lemma getitem_minus_one {A} (l : list A) : getitem l (-1) = last l.
Proof.
  destruct (decide (l = [])) as [-> | Hne]; [reflexivity |].
  assert (Hlen : (0 < length l)%nat) by (destruct l; cbn; [congruence | lia]).
  unfold getitem. replace (0 <=? -1) with false by reflexivity. cbn [andb].
  destruct (Z.leb_spec (- Z.of_nat (length l)) (-1)); [| lia].
  cbn [andb Z.ltb Z.compare]. rewrite last_lookup, nth_error_lookup.
  f_equal. lia.
Qed.

Lemma slice_from_minus_one {A} (l : list A) :
  getitem (slice_from l (-1)) 0 = last l.
Proof.
  rewrite getitem_first. unfold slice_from.
  replace (-1 <? 0) with true by reflexivity.
  destruct (decide (l = [])) as [-> | Hne]; [reflexivity |].
  assert (Hlen : (0 < length l)%nat) by (destruct l; cbn; [congruence | lia]).
  rewrite last_lookup.
  replace (Z.to_nat (Z.max (Z.of_nat (length l) + -1) 0))
    with (pred (length l)) by lia.
  rewrite <- (Nat.add_0_r (pred (length l))) at 2.
  rewrite <- lookup_drop. now destruct (drop _ l).
Qed.

Section Moving.
Context `{cfg : Settings}.


(** The jumps to the ends, each on its own. *)
Lemma to_first_arrives (st : St) (q : Page) (out : Message) :
  0 < HISTORY_CACHE_LIMIT ->
  output (self st) = Some out ->
  head (pages (self st)) = Some q ->
  arrives_at q out st (to_first st).
Proof.
  intros Hpos Hout Hq. unfold to_first. step. rewrite getitem_first, Hq.
  now apply move_arrives.
Qed.

Lemma to_last_arrives (st : St) (q : Page) (out : Message) :
  0 < HISTORY_CACHE_LIMIT ->
  output (self st) = Some out ->
  last (pages (self st)) = Some q ->
  arrives_at q out st (to_last st).
Proof.
  intros Hpos Hout Hq. unfold to_last. step. rewrite slice_from_minus_one, Hq.
  now apply move_arrives.
Qed.

(** [to_first], [to_last] and [go_to] with a position: the first page, the
    last page, and the page at that position counted as Python does (from
    the end when negative) are reached as [arrives_at] describes. *)
Theorem absolute_navigation_arrives (st : St) (q : Page) (out : Message) :
  0 < HISTORY_CACHE_LIMIT ->
  output (self st) = Some out ->
  (head (pages (self st)) = Some q -> arrives_at q out st (to_first st))
  /\ (last (pages (self st)) = Some q -> arrives_at q out st (to_last st))
  /\ (forall i : Z,
        getitem (pages (self st)) i = Some q ->
        arrives_at q out st (go_to (Some (ByIndex i)) st)).
Proof.
  intros Hpos Hout. split; [| split].
  - now apply to_first_arrives.
  - now apply to_last_arrives.
  - intros i Hq. unfold go_to. step. rewrite Hq. now apply move_arrives.
Qed.

(** Without a target page nothing happens but the exception: [to_first] and
    [to_last] on a menu without pages, and [go_to] with a position outside
    [-N, N), raise [IndexError] and leave the state as it was. *)
Theorem navigation_without_target_raises (st : St) :
  (pages (self st) = [] ->
   to_first st = (Raise IndexError, st) /\ to_last st = (Raise IndexError, st))
  /\ (forall i : Z,
        i < - Z.of_nat (length (pages (self st)))
        \/ Z.of_nat (length (pages (self st))) <= i ->
        go_to (Some (ByIndex i)) st = (Raise IndexError, st)).
Proof.
  split.
  - intros Hnone. unfold to_first, to_last. split; step; now rewrite Hnone.
  - intros i Hi. unfold go_to. step.
    now rewrite (getitem_out_of_range _ _ Hi).
Qed.

(** [go_to(-1)] is [to_last], on every menu. *)
Theorem go_to_minus_one_is_to_last (st : St) :
  go_to (Some (ByIndex (-1))) st = to_last st.
Proof.
  unfold go_to, to_last. step. symmetry. step.
  rewrite getitem_minus_one, slice_from_minus_one.
  destruct (last (pages (self st))); reflexivity.
Qed.

(** [to_last] followed by [to_first] ends on the first page, provided the
    first page has a callback and the last page has one or the session is
    registered.  Both pages are rendered, the last and then the first: by
    two edits of the output in a guild channel; otherwise the output is
    deleted and the last page sent to the destination, and that message is
    then edited or replaced in turn, as the destination is a guild channel
    or not.  The jump to a last page without callback closes the session on
    the way, so the menu ends inactive with the first page on display. *)
Theorem to_last_then_to_first_returns (st : St) (first final : Page)
  (h0 : Hook) (out : Message) :
  0 < HISTORY_CACHE_LIMIT ->
  output (self st) = Some out ->
  head (pages (self st)) = Some first ->
  last (pages (self st)) = Some final ->
  on_next_event first = Some h0 ->
  is_Some (on_next_event final)
  \/ is_Some (sessions (env st) !! identity (self st)) ->
  exists st',
    (to_last ;; to_first) st = (Ok tt, st')
    /\ page (self st') = Some first
    /\ last (history (self st')) = Some (index first)
    /\ active (self st')
       = match on_next_event final with
         | Some _ => active (self st)
         | None => false
         end
    /\ output (self st')
       = Some (if in_guild out then out
               else {| msg_id :=
                         (if dest_in_guild (destination (self st))
                          then next_id (env st) else next_id (env st) + 1);
                       in_guild := dest_in_guild (destination (self st));
                       reactions := [] |})
    /\ api (env st')
       = api (env st)
         ++ (if in_guild out
             then [Edit (msg_id out) (PageEmbed final);
                   Edit (msg_id out) (PageEmbed first)]
             else Delete (msg_id out)
                  :: Send (next_id (env st)) (PageEmbed final)
                  :: (if dest_in_guild (destination (self st))
                      then [Edit (next_id (env st)) (PageEmbed first)]
                      else [Delete (next_id (env st));
                            Send (next_id (env st) + 1) (PageEmbed first)])).
Proof.
  intros Hpos Hout Hfirst Hfinal Hcb Hopen.
  (* the first jump *)
  destruct (_post_next_runs
              {| self := with_page (Some final) (self st); env := env st |}
              final out Hpos eq_refl Hout Hopen)
    as (b1 & Hrun1 & _ & _ & Hpages1 & Hout1 & Hact1 & Hdest1 & Hapi1 & Hid1).
  tidy.
  destruct (rendered_keeps (PageEmbed final) out b1 Hout1)
    as (_ & Hpages1' & Hact1' & _).
  destruct (rendered_writes (PageEmbed final) out b1 Hout1)
    as (Hout1' & Hapi1' & Hid1' & Hdest1').
  set (s1 := rendered (PageEmbed final) out b1) in *.
  assert (Hleg1 : to_last st = (Ok tt, s1)).
  { unfold to_last. step. rewrite slice_from_minus_one, Hfinal.
    step. exact Hrun1. }
  (* the second jump *)
  rewrite Hpages1 in Hpages1'. rewrite <- Hpages1' in Hfirst.
  match type of Hout1' with _ = Some ?o => set (out1 := o) in * end.
  destruct (_post_next_runs
              {| self := with_page (Some first) (self s1); env := env s1 |}
              first out1 Hpos eq_refl Hout1' (or_introl (ex_intro _ h0 Hcb)))
    as (b2 & Hrun2 & Hhist2 & Hpage2 & _ & Hout2 & Hact2 & Hdest2 & Hapi2
        & Hid2).
  tidy. rewrite Hcb in Hact2.
  destruct (rendered_keeps (PageEmbed first) out1 b2 Hout2)
    as (Hpage3 & _ & Hact3 & Hhist3 & _).
  destruct (rendered_writes (PageEmbed first) out1 b2 Hout2)
    as (Hout3 & Hapi3 & _).
  change (destination (with_page (Some final) (self st)))
    with (destination (self st)) in Hdest1.
  change (destination (with_page (Some first) (self s1)))
    with (destination (self s1)) in Hdest2.
  assert (Hleg2 : to_first s1 = (Ok tt, rendered (PageEmbed first) out1 b2)).
  { unfold to_first. step. rewrite getitem_first, Hfirst.
    step. exact Hrun2. }
  eexists. split; [step_with Hleg1; exact Hleg2 |].
  rewrite Hpage3, Hhist3, Hact3, Hout3, Hapi3, Hact2, Hact1', Hact1.
  rewrite Hapi2, Hapi1', Hapi1, Hid2, Hid1', Hid1, Hdest2, Hdest1', Hdest1.
  subst out1. rewrite Hid1, Hdest1.
  repeat apply conj; auto.
  - destruct (in_guild out) eqn:Hguild; [now rewrite Hguild |].
    cbn [in_guild].
    destruct (dest_in_guild (destination (self st))); reflexivity.
  - destruct (in_guild out) eqn:Hguild.
    + rewrite Hguild. now rewrite <- app_assoc.
    + cbn [in_guild msg_id]. rewrite <- app_assoc.
      destruct (dest_in_guild (destination (self st))); reflexivity.
Qed.

(** The search of [go_to] by callback name, over pages whose callbacks up to
    some page [q] all have other names. *)
Lemma find_by_name_skips (name : string) (front rest : list Page) :
  Forall (fun p => exists h, on_next_event p = Some h /\ hook_name h <> name)
    front ->
  find_by_name name (front ++ rest) = find_by_name name rest.
Proof.
  induction front as [| p front IH]; intros Hfront; [reflexivity |].
  apply Forall_cons in Hfront as [(h & Hh & Hne) Hrest].
  cbn [app find_by_name]. rewrite Hh.
  apply String.eqb_neq in Hne. rewrite Hne. now apply IH.
Qed.

(** [go_to] with the name of a callback.  The pages are searched in order:
    the first page whose callback has that name is reached as [arrives_at]
    describes; a page without callback met before any match ends the search
    with [AttributeError] and nothing changed; and when every page has a
    callback and none has that name, the current page is rendered again, as
    by [go_to()] without argument. *)
Theorem go_to_by_name (st : St) (name : string) (out : Message) :
  0 < HISTORY_CACHE_LIMIT ->
  output (self st) = Some out ->
  (forall (front back : list Page) (q : Page),
      pages (self st) = front ++ q :: back ->
      Forall (fun p => exists h, on_next_event p = Some h
                                 /\ hook_name h <> name) front ->
      (forall h, on_next_event q = Some h -> hook_name h = name ->
                 arrives_at q out st (go_to (Some (ByName name)) st))
      /\ (on_next_event q = None ->
          go_to (Some (ByName name)) st = (Raise AttributeError, st)))
  /\ (Forall (fun p => exists h, on_next_event p = Some h
                                /\ hook_name h <> name) (pages (self st)) ->
      go_to (Some (ByName name)) st = go_to None st).
Proof.
  intros Hpos Hout. split.
  - intros front back q Hpages Hfront. split.
    + intros h Hh Hname. unfold go_to. step.
      rewrite Hpages, (find_by_name_skips name front (q :: back) Hfront).
      cbn [find_by_name]. rewrite Hh.
      apply String.eqb_eq in Hname. rewrite Hname.
      now apply move_arrives.
    + intros Hnone. unfold go_to. step.
      rewrite Hpages, (find_by_name_skips name front (q :: back) Hfront).
      cbn [find_by_name]. rewrite Hnone. reflexivity.
  - intros Hall. unfold go_to. step. symmetry. step.
    rewrite <- (app_nil_r (pages (self st))).
    now rewrite (find_by_name_skips name (pages (self st)) [] Hall).
Qed.

End Moving.

(** ** Cancelling, timing out and the registry *)

Section Ending.
Context `{cfg : Settings}.

(** [close] on a page with an [on_cancel] callback only calls it: the output
    is not deleted and the session stays active and registered. *)
Theorem close_with_cancel_callback_only_calls_it (st : St) (p : Page)
  (f : string) :
  page (self st) = Some p ->
  on_cancel_event p = Some f ->
  close st
  = (Ok tt,
     {| self := self st;
        env := with_hook_calls (hook_calls (env st) ++ [f]) (env st) |}).
Proof.
  intros Hp Hf. unfold close, _execute_cancel.
  step_with (current_page_ok st p Hp). now rewrite Hf.
Qed.

Lemma _cleanup_output_keeps (st : St) :
  persist (self st) = true -> _cleanup_output st = (Ok tt, st).
Proof.
  intros Hpersist. unfold _cleanup_output. step. now rewrite Hpersist.
Qed.

Lemma _cleanup_output_deletes (st : St) (out : Message) :
  persist (self st) = false ->
  output (self st) = Some out ->
  _cleanup_output st
  = (Ok tt,
     {| self := with_output None (self st);
        env := with_api (api (env st) ++ [Delete (msg_id out)])
                 (with_remote (delete (msg_id out) (remote (env st)))
                    (env st)) |}).
Proof.
  intros Hpersist Hout. unfold _cleanup_output. step. rewrite Hpersist.
  cbn [negb]. step_with (current_output_ok st out Hout).
  unfold api_delete. repeat step. reflexivity.
Qed.

Lemma _cleanup_output_without_output (st : St) :
  persist (self st) = false ->
  output (self st) = None ->
  _cleanup_output st = (Raise AttributeError, st).
Proof.
  intros Hpersist Hout. unfold _cleanup_output. step. rewrite Hpersist.
  cbn [negb]. apply bind_raise.
  cbv [current_output bind get_self raise]. now rewrite Hout.
Qed.

(** [close] on a page without [on_cancel] callback, for a registered
    session that has an output: the output is deleted unless
    [persist_on_close] was called, the identity leaves the registry and the
    menu becomes inactive.  A second [close] then raises and changes
    nothing: [KeyError] when the output was kept, [AttributeError] when it
    was deleted. *)
Theorem close_cleans_up_once (st : St) (p : Page) (out : Message) (r : nat) :
  page (self st) = Some p ->
  on_cancel_event p = None ->
  output (self st) = Some out ->
  sessions (env st) !! identity (self st) = Some r ->
  exists st',
    close st = (Ok tt, st')
    /\ active (self st') = false
    /\ sessions (env st') = delete (identity (self st)) (sessions (env st))
    /\ output (self st') = (if persist (self st) then Some out else None)
    /\ api (env st')
       = (if persist (self st) then api (env st)
          else api (env st) ++ [Delete (msg_id out)])
    /\ hook_calls (env st') = hook_calls (env st)
    /\ close st'
       = (Raise (if persist (self st) then KeyError else AttributeError), st').
Proof.
  intros Hp Hc Hout Hreg. unfold close, _execute_cancel.
  step_with (current_page_ok st p Hp). rewrite Hc.
  destruct (persist (self st)) eqn:Hpersist.
  - step_with (_cleanup_output_keeps st Hpersist).
    step_with (close_session_registered st r Hreg).
    eexists. split; [reflexivity |]. tidy.
    repeat (split; [first [reflexivity | exact Hout] |]).
    erewrite bind_ok by (apply current_page_ok; exact Hp).
    rewrite Hc. erewrite bind_ok by (apply _cleanup_output_keeps; exact Hpersist).
    apply bind_raise. apply close_session_absent. tidy.
    apply lookup_delete_eq.
  - step_with (_cleanup_output_deletes st out Hpersist Hout).
    erewrite bind_ok.
    2:{ apply close_session_registered with (r := r). exact Hreg. }
    eexists. split; [reflexivity |]. tidy.
    repeat (split; [reflexivity |]).
    erewrite bind_ok by (apply current_page_ok; exact Hp).
    rewrite Hc. apply bind_raise.
    now apply _cleanup_output_without_output.
Qed.

(** The timeout protocol [_execute_timeout].  With an [on_timeout] callback
    only the callback is called, and the session stays active and
    registered.  Without one the notice replaces the output, and then the
    session is unregistered and made inactive; if it is not registered, the
    notice has been rendered when [KeyError] is raised. *)
Theorem timeout_protocol (st : St) (p : Page) (out : Message) :
  page (self st) = Some p ->
  output (self st) = Some out ->
  (forall f, on_timeout_event p = Some f ->
     _execute_timeout st
     = (Ok tt,
        {| self := self st;
           env := with_hook_calls (hook_calls (env st) ++ [f]) (env st) |}))
  /\ (forall r, on_timeout_event p = None ->
       sessions (env st) !! identity (self st) = Some r ->
       exists st',
         _execute_timeout st = (Ok tt, st')
         /\ active (self st') = false
         /\ sessions (env st')
            = delete (identity (self st)) (sessions (env st))
         /\ last (api (env st'))
            = Some (if in_guild out then Edit (msg_id out) TimedOutEmbed
                    else Send (next_id (env st)) TimedOutEmbed)
         /\ hook_calls (env st') = hook_calls (env st))
  /\ (on_timeout_event p = None ->
      sessions (env st) !! identity (self st) = None ->
      _execute_timeout st = (Raise KeyError, rendered TimedOutEmbed out st)).
Proof.
  intros Hp Hout.
  destruct (rendered_keeps TimedOutEmbed out st Hout)
    as (_ & _ & _ & _ & Hctx & Hsess & Hhooks & _ & _ & Hshown).
  assert (Hid : identity (self (rendered TimedOutEmbed out st))
                = identity (self st)) by (unfold identity; now rewrite Hctx).
  split; [| split].
  - intros f Hf. unfold _execute_timeout.
    step_with (current_page_ok st p Hp). now rewrite Hf.
  - intros r Hnone Hreg. unfold _execute_timeout.
    step_with (current_page_ok st p Hp). rewrite Hnone.
    step_with (send_message_runs TimedOutEmbed st out Hout).
    erewrite bind_ok.
    2:{ apply close_session_registered with (r := r).
        now rewrite Hid, Hsess. }
    eexists. split; [reflexivity |]. tidy.
    rewrite Hid, Hsess, Hhooks, Hshown. auto.
  - intros Hnone Hfree. unfold _execute_timeout.
    step_with (current_page_ok st p Hp). rewrite Hnone.
    step_with (send_message_runs TimedOutEmbed st out Hout).
    apply bind_raise. apply close_session_absent. now rewrite Hid, Hsess.
Qed.

(** Registering and closing a session gives the registry back as it was;
    closing once more raises [KeyError] and changes nothing. *)
Theorem registration_round_trip (st : St) :
  sessions (env st) !! identity (self st) = None ->
  exists st',
    (_start_session ;; close_session) st = (Ok tt, st')
    /\ sessions (env st') = sessions (env st)
    /\ active (self st') = false
    /\ close_session st' = (Raise KeyError, st').
Proof.
  intros Hfree. step_with (_start_session_free st Hfree).
  erewrite close_session_registered
    by (tidy; apply lookup_insert_eq).
  eexists. split; [reflexivity |]. tidy.
  assert (Hback : delete (identity (self st))
                    (<[identity (self st) := ref (self st)]>
                       (sessions (env st)))
                  = sessions (env st)).
  { apply map_eq. intros k.
    destruct (decide (k = identity (self st))) as [-> | Hne].
    - now rewrite lookup_delete_eq.
    - now rewrite lookup_delete_ne, lookup_insert_ne. }
  split; [exact Hback |]. split; [reflexivity |].
  apply close_session_absent. tidy. now rewrite Hback.
Qed.

(** [flush] empties the registry for everyone: a session that was open
    cannot be closed any more ([KeyError]), and every identity can be
    registered again. *)
Theorem flush_forgets_every_session (st : St) :
  (flush ;; close_session) st
  = (Raise KeyError,
     {| self := self st; env := with_sessions ∅ (env st) |})
  /\ exists st',
       (flush ;; _start_session) st = (Ok true, st')
       /\ sessions (env st') = {[ identity (self st) := ref (self st) ]}
       /\ self st' = self st.
Proof.
  split.
  - unfold flush. step. apply close_session_absent. tidy.
    apply lookup_empty.
  - unfold flush. step. erewrite _start_session_free
      by (tidy; apply lookup_empty).
    eexists. split; [reflexivity |]. tidy. split; reflexivity.
Qed.

End Ending.

(** ** What validation looks at *)

Section ValidationScope.
Context `{cfg : Settings}.

Lemma check_each_forallb (known : list Emoji) (bs : list Button) (st : St) :
  check_each known bs st
  = (if forallb (button_ok known) bs then Ok tt else Raise ButtonsError, st).
Proof.
  induction bs as [| b rest IH]; cbn [check_each forallb]; [reflexivity |].
  destruct (button_ok known b); [exact IH | reflexivity].
Qed.

Lemma count_callbacks_outcome (ps : list Page) : forall (n : Z) (st : St),
  count_callbacks ps n st
  = (fst (loop_outcome (bot_emojis (ctx (self st))) ps n),
     add_log (snd (loop_outcome (bot_emojis (ctx (self st))) ps n)) st).
Proof.
  induction ps as [| p rest IH]; intros n st.
  - cbn. now rewrite add_log_nil.
  - cbn [count_callbacks loop_outcome].
    destruct (buttons_list p) as [| b bs] eqn:Hb.
    + cbn. now rewrite add_log_nil.
    + destruct (Z.ltb_spec (Z.of_nat (length (b :: bs))) 1) as [Hlt | _];
        [cbn [length] in Hlt; lia |].
      set (warned := if (5 <? Z.of_nat (length (b :: bs)))
                        && negb HIDE_WARNINGS
                     then [(WARNING, ThrottleWarning)] else []).
      assert (Hwarn : (if (5 <? Z.of_nat (length (b :: bs)))
                          && negb HIDE_WARNINGS
                       then logging WARNING ThrottleWarning else ret tt) st
                      = (Ok tt, add_log warned st)).
      { subst warned. destruct (_ && _); [reflexivity |].
        cbv [ret]. now rewrite add_log_nil. }
      step_with Hwarn. unfold _check_buttons.
      unfold bind at 1, bind at 1, get_self.
      rewrite check_each_forallb. cbn [self add_log].
      destruct (forallb (button_ok (bot_emojis (ctx (self st)))) (b :: bs)).
      * rewrite IH. cbn [self add_log ctx].
        destruct (loop_outcome _ rest _) as [r l]. cbn [fst snd].
        now rewrite add_log_app.
      * reflexivity.
Qed.

Lemma loop_outcome_warnings (known : list Emoji) (ps : list Page) :
  forall n : Z,
    Forall is_warning (snd (loop_outcome known ps n))
    /\ (HIDE_WARNINGS = true
        \/ Forall (fun p => (length (buttons_list p) <= 5)%nat) ps ->
        snd (loop_outcome known ps n) = []).
Proof.
  induction ps as [| p rest IH]; intros n; cbn [loop_outcome].
  - split; [constructor | reflexivity].
  - destruct (buttons_list p) as [| b bs] eqn:Hb;
      [split; [constructor | reflexivity] |].
    set (warned := if (5 <? Z.of_nat (length (b :: bs)))
                      && negb HIDE_WARNINGS
                   then [(WARNING, ThrottleWarning)] else []).
    assert (Hw : Forall is_warning warned)
      by (subst warned; destruct (_ && _); repeat constructor).
    assert (Hnil : HIDE_WARNINGS = true
                   \/ Forall (fun p => (length (buttons_list p) <= 5)%nat)
                        (p :: rest) -> warned = []).
    { subst warned. intros [-> | Hsmall].
      - now rewrite andb_false_r.
      - apply Forall_cons in Hsmall as [Hp _]. rewrite Hb in Hp.
        destruct (Z.ltb_spec 5 (Z.of_nat (length (b :: bs))));
          [lia | reflexivity]. }
    destruct (forallb (button_ok known) (b :: bs)).
    + specialize (IH (match on_next_event p with
                      | Some _ => n + 1
                      | None => n
                      end)).
      destruct (loop_outcome known rest _) as [r l]. cbn [snd] in *.
      destruct IH as [Hl Hlnil]. split.
      * now apply Forall_app.
      * intros Hcase. rewrite (Hnil Hcase). cbn [app]. apply Hlnil.
        destruct Hcase as [? | Hsmall]; [now left | right].
        now apply Forall_cons in Hsmall as [_ ?].
    + cbn [snd]. split; [exact Hw | exact Hnil].
Qed.

(** The loop stops at the first page without buttons: what follows that
    page plays no part. *)
Lemma loop_outcome_gap (known : list Emoji) (front : list Page) (gap : Page)
  (back back' : list Page) :
  buttons_list gap = [] ->
  forall n : Z,
    loop_outcome known (front ++ gap :: back) n
    = loop_outcome known (front ++ gap :: back') n.
Proof.
  intros Hgap. induction front as [| p front IH]; intros n;
    cbn [app loop_outcome].
  - now rewrite Hgap.
  - destruct (buttons_list p); [reflexivity |].
    destruct (forallb _ _); [| reflexivity]. now rewrite IH.
Qed.

(** [_validate_buttons] in terms of [loop_outcome]. *)
Lemma _validate_buttons_outcome (st : St) :
  _validate_buttons st
  = (match fst (loop_outcome (bot_emojis (ctx (self st)))
                  (pages (self st)) 0) with
     | Raise e => Raise e
     | Ok n =>
         match page (self st) with
         | None => Raise AttributeError
         | Some p =>
             match on_fail_event p with
             | Some _ => Raise EventError
             | None =>
                 if n <? Z.of_nat (length (pages (self st))) - 1
                 then Raise EventError else Ok tt
             end
         end
     end,
     add_log (snd (loop_outcome (bot_emojis (ctx (self st)))
                     (pages (self st)) 0)) st).
Proof.
  unfold _validate_buttons. step.
  unfold bind at 1. rewrite count_callbacks_outcome.
  destruct (loop_outcome _ _ _) as [[n | e] l]; cbn [fst snd];
    [| reflexivity].
  cbv [bind current_page get_self ret raise]. cbn [self add_log].
  destruct (page (self st)) as [p |]; [| reflexivity].
  destruct (on_fail_event p); [reflexivity |].
  destruct (n <? _); reflexivity.
Qed.

(** The state after validation is the state before it with records added to
    the log. *)
Lemma _validate_buttons_adds_log (st : St) :
  exists records, snd (_validate_buttons st) = add_log records st.
Proof. rewrite _validate_buttons_outcome. cbn [snd]. eauto. Qed.

(** Validation reads the menu and writes at most log records: the menu,
    registry and platform are as before, the records are throttling
    warnings, and there are none when warnings are hidden or no page has
    more than five buttons. *)
Theorem validation_only_logs (st : St) :
  exists warnings,
    snd (_validate_buttons st) = add_log warnings st
    /\ Forall is_warning warnings
    /\ (HIDE_WARNINGS = true
        \/ Forall (fun p => (length (buttons_list p) <= 5)%nat)
             (pages (self st)) ->
        snd (_validate_buttons st) = st).
Proof.
  rewrite _validate_buttons_outcome. cbn [snd].
  destruct (loop_outcome_warnings (bot_emojis (ctx (self st)))
              (pages (self st)) 0) as [Hw Hnil].
  eexists. split; [reflexivity |]. split; [exact Hw |].
  intros Hcase. rewrite (Hnil Hcase). apply add_log_nil.
Qed.

(** Validation never looks past the first page without buttons: two menus
    that agree up to and including such a page, and have the same number of
    pages after it, get the same verdict and the same log, whatever buttons
    and callbacks the later pages have. *)
Theorem validation_ignores_pages_after_gap (m : Menu) (e : Env)
  (front back back' : list Page) (gap : Page) :
  buttons_list gap = [] ->
  length back = length back' ->
  fst (_validate_buttons
         {| self := with_pages (front ++ gap :: back) m; env := e |})
  = fst (_validate_buttons
           {| self := with_pages (front ++ gap :: back') m; env := e |})
  /\ env (snd (_validate_buttons
                 {| self := with_pages (front ++ gap :: back) m; env := e |}))
     = env (snd (_validate_buttons
                   {| self := with_pages (front ++ gap :: back') m;
                      env := e |})).
Proof.
  intros Hgap Hlen. rewrite !_validate_buttons_outcome. tidy.
  rewrite (loop_outcome_gap (bot_emojis (ctx m)) front gap back back' Hgap).
  rewrite !length_app. cbn [length]. rewrite Hlen.
  split; reflexivity.
Qed.

(** A ButtonMenu whose current page has an [on_fail] callback is rejected
    by [open]. *)
Theorem on_fail_callback_is_rejected (script : list (list Completed))
  (st : St) (p : Page) (f : string) :
  page (self st) = Some p ->
  on_fail_event p = Some f ->
  rejected_at_open script st
  /\ exists (e : exn) (warnings : list (Level * LogMsg)),
       (e = ButtonsError \/ e = EventError)
       /\ Forall is_warning warnings
       /\ open script st
          = (Ok Returned, add_log (warnings ++ [(ERROR, MessageOf e)]) st).
Proof.
  intros Hp Hf.
  assert (Hraise : exists e warnings,
             (e = ButtonsError \/ e = EventError)
             /\ Forall is_warning warnings
             /\ _validate_buttons st = (Raise e, add_log warnings st)).
  { destruct (_validate_buttons_cases st) as (l & Hl & Hcases).
    destruct Hcases as [H | [[Hnone _] | (q & Hq & H)]].
    - exists ButtonsError, l. auto.
    - congruence.
    - exists EventError, l. split; [now right |]. split; [exact Hl |].
      rewrite H. assert (q = p) by congruence. subst q. now rewrite Hf. }
  destruct Hraise as (e & warnings & He & Hw & Hrun).
  assert (Hopen := open_invalid script st _ e He Hrun).
  rewrite add_log_app in Hopen. split.
  - exists e. rewrite Hrun, Hopen. cbn [fst snd self env add_log].
    repeat apply conj; auto.
  - exists e, warnings. auto.
Qed.

(** [open] on a menu to which no pages were added raises [AttributeError]
    and does nothing else: validation reads the current page before [_open]
    gets to its check for an empty page list. *)
Theorem open_without_pages_raises (script : list (list Completed)) (st : St) :
  pages (self st) = [] ->
  page (self st) = None ->
  open script st = (Raise AttributeError, st).
Proof.
  intros Hpages Hpage.
  assert (Hrun : _validate_buttons st = (Raise AttributeError, st)).
  { rewrite _validate_buttons_outcome, Hpages, Hpage. cbn.
    now rewrite add_log_nil. }
  unfold open, bind at 1, try, bind at 1. now rewrite Hrun.
Qed.

End ValidationScope.

(** ** Building and opening a menu *)

Section Building.
Context `{cfg : Settings}.

Lemma add_each_appends (template : option (Page -> Page)) (ps : list Page) :
  forall (i : Z) (st : St),
    add_each i ps template st
    = (Ok tt,
       {| self :=
            with_pages
              (pages (self st)
               ++ imap (fun k p => set_index (i + Z.of_nat k)
                                     (default id template p)) ps)
              (self st);
          env := env st |}).
Proof.
  induction ps as [| p rest IH]; intros i st.
  - cbn. rewrite app_nil_r. destruct st as [m e]. destruct m. reflexivity.
  - cbn [add_each]. step. rewrite IH. tidy. cbn [imap].
    rewrite <- app_assoc. cbn [app].
    assert (Hl : imap (fun k p0 => set_index (i + 1 + Z.of_nat k)
                                     (default id template p0)) rest
                 = imap ((fun k p0 => set_index (i + Z.of_nat k)
                                        (default id template p0)) ∘ S) rest).
    { apply imap_ext. intros k q _. cbn. f_equal. lia. }
    rewrite Hl, Z.add_0_r. destruct template; reflexivity.
Qed.

(** [add_pages] on values, for a non-empty list: the state it leaves. *)
Lemma add_pages_runs (st : St) (ps : list Page)
  (template : option (Page -> Page)) :
  ps <> [] ->
  add_pages ps template st
  = (Ok tt,
     {| self :=
          with_page (head (pages (self st) ++ indexed template ps))
            (with_pages (pages (self st) ++ indexed template ps) (self st));
        env := env st |}).
Proof.
  intros Hne. unfold add_pages.
  assert (Hvalid : _validate_pages ps st = (Ok tt, st)).
  { unfold _validate_pages. destruct ps; [congruence | reflexivity]. }
  step_with Hvalid. step_with (add_each_appends template ps 0 st).
  step. tidy. rewrite getitem_first.
  assert (Hsame : imap (fun k p => set_index (0 + Z.of_nat k)
                                     (default id template p)) ps
                  = indexed template ps) by reflexivity.
  rewrite Hsame.
  destruct (head (pages (self st) ++ indexed template ps)) as [q0 |] eqn:Hhead.
  - reflexivity.
  - apply head_None in Hhead. apply app_eq_nil in Hhead as [_ Hnil].
    unfold indexed in Hnil. apply (f_equal length) in Hnil.
    rewrite length_imap in Hnil. destruct ps; [congruence | discriminate].
Qed.

(** The loop on objects: what the menu holds afterwards, which objects it
    leaves alone, and the index an object ends with. *)
Lemma set_index_twice (i j : Z) (p : Page) :
  set_index j (set_index i p) = set_index j p.
Proof. reflexivity. Qed.

Lemma objects_add_each_holds (refs : list nat) :
  forall (i : Z) (m : Objects.Held) (h : gmap nat Page),
    fst (Objects.add_each i refs m h)
    = {| Objects.held_pages := Objects.held_pages m ++ refs;
         Objects.held_page := Objects.held_page m |}.
Proof.
  induction refs as [| r rest IH]; intros i m h; cbn [Objects.add_each].
  - cbn [fst]. rewrite app_nil_r. now destruct m.
  - rewrite IH. cbn [Objects.held_pages Objects.held_page].
    now rewrite <- app_assoc.
Qed.

Lemma objects_add_each_untouched (refs : list nat) :
  forall (i : Z) (m : Objects.Held) (h : gmap nat Page) (r : nat),
    r ∉ refs -> snd (Objects.add_each i refs m h) !! r = h !! r.
Proof.
  induction refs as [| r0 rest IH]; intros i m h r Hr;
    cbn [Objects.add_each]; [reflexivity |].
  apply not_elem_of_cons in Hr as [Hne Hrest].
  rewrite IH by exact Hrest. now apply lookup_alter_ne.
Qed.

Lemma objects_add_each_last (refs : list nat) :
  forall (i : Z) (m : Objects.Held) (h : gmap nat Page) (k : nat)
         (r : nat) (p : Page),
    refs !! k = Some r ->
    r ∉ drop (S k) refs ->
    h !! r = Some p ->
    snd (Objects.add_each i refs m h) !! r
    = Some (set_index (i + Z.of_nat k) p).
Proof.
  induction refs as [| r0 rest IH]; intros i m h k r p Hk Hlast Hp;
    [discriminate |].
  cbn [Objects.add_each]. destruct k as [| k]; cbn in Hk, Hlast.
  - injection Hk as ->. rewrite drop_0 in Hlast.
    rewrite objects_add_each_untouched by exact Hlast.
    rewrite lookup_alter_eq, Hp. cbn. now rewrite Z.add_0_r.
  - destruct (decide (r = r0)) as [-> | Hne].
    + rewrite (IH (i + 1) _ _ k r0 (set_index i p) Hk Hlast).
      * rewrite set_index_twice. f_equal. f_equal. lia.
      * now rewrite lookup_alter_eq, Hp.
    + rewrite (IH (i + 1) _ _ k r p Hk Hlast).
      * f_equal. f_equal. lia.
      * now rewrite lookup_alter_ne.
Qed.

Lemma NoDup_not_later {A} (l : list A) (k : nat) (x : A) :
  NoDup l -> l !! k = Some x -> x ∉ drop (S k) l.
Proof.
  intros Hnd Hk Hin. apply list_elem_of_lookup in Hin as [j Hj].
  rewrite lookup_drop in Hj.
  pose proof (NoDup_lookup l k (S k + j) x Hnd Hk Hj). lia.
Qed.

(** [add_pages] on a non-empty list of page objects.  The references are
    appended to [self.pages] and the first page of the menu becomes current.
    An object of the list ends with the position of its last occurrence in
    the list as index, so an object listed twice has the later position at
    both places; objects outside the list are left alone, those of the list
    are written whoever else holds them.  On values, [add_pages] changes the
    page list and the current page and nothing else.  For a list of distinct
    objects that the menu does not hold yet, the values give the pages the
    menu holds afterwards: every new page has its position in the list as
    index. *)
Theorem add_pages_indexes (refs : list nat) (m : Objects.Held)
  (h : gmap nat Page) (ps : list Page) :
  refs <> [] ->
  Objects.values h refs ps ->
  exists h',
    Objects.add_pages refs m h
    = (Ok tt,
       ({| Objects.held_pages := Objects.held_pages m ++ refs;
           Objects.held_page := head (Objects.held_pages m ++ refs) |}, h'))
    /\ (forall r, r ∉ refs -> h' !! r = h !! r)
    /\ (forall (k : nat) (r : nat) (p : Page),
          refs !! k = Some r -> ps !! k = Some p ->
          r ∉ drop (S k) refs ->
          h' !! r = Some (set_index (Z.of_nat k) p))
    /\ (forall (st : St) (template : option (Page -> Page)),
          add_pages ps template st
          = (Ok tt,
             {| self :=
                  with_page (head (pages (self st) ++ indexed template ps))
                    (with_pages (pages (self st) ++ indexed template ps)
                       (self st));
                env := env st |}))
    /\ (NoDup refs ->
        (forall r, r ∈ Objects.held_pages m -> r ∉ refs) ->
        forall old : list Page,
          Objects.values h (Objects.held_pages m) old ->
          Objects.values h' (Objects.held_pages m ++ refs)
            (old ++ indexed None ps)).
Proof.
  intros Hne Hvalues.
  exists (snd (Objects.add_each 0 refs m h)).
  assert (Hps : ps <> []).
  { intros ->. apply Forall2_nil_inv_r in Hvalues. contradiction. }
  assert (Hlast : forall (k : nat) (r : nat) (p : Page),
             refs !! k = Some r -> ps !! k = Some p ->
             r ∉ drop (S k) refs ->
             snd (Objects.add_each 0 refs m h) !! r
             = Some (set_index (Z.of_nat k) p)).
  { intros k r p Hk Hp Hlater.
    assert (Hr : h !! r = Some p)
      by exact (Forall2_lookup_lr _ _ _ _ _ _ Hvalues Hk Hp).
    now rewrite (objects_add_each_last refs 0 m h k r p Hk Hlater Hr). }
  split; [| split; [| split; [| split]]].
  - unfold Objects.add_pages.
    destruct (Z.eqb_spec (Z.of_nat (length refs)) 0) as [Hlen | _].
    { destruct refs; [contradiction | cbn in Hlen; lia]. }
    pose proof (objects_add_each_holds refs 0 m h) as Hheld.
    destruct (Objects.add_each 0 refs m h) as [m' h'] eqn:Hrun.
    cbn [fst snd] in *. subst m'. cbn [Objects.held_pages].
    rewrite getitem_first.
    destruct (head (Objects.held_pages m ++ refs)) as [r |] eqn:Hhead;
      [reflexivity |].
    apply head_None in Hhead. apply app_eq_nil in Hhead as [_ ?].
    contradiction.
  - intros r Hr. now apply objects_add_each_untouched.
  - exact Hlast.
  - intros st template. now apply add_pages_runs.
  - intros Hnd Hfresh old Hold. apply Forall2_app.
    + apply Forall2_same_length_lookup. split.
      * now apply Forall2_length in Hold.
      * intros k r p Hk Hp.
        rewrite objects_add_each_untouched.
        -- exact (Forall2_lookup_lr _ _ _ _ _ _ Hold Hk Hp).
        -- apply Hfresh. now apply list_elem_of_lookup_2 in Hk.
    + apply Forall2_same_length_lookup. split.
      * unfold indexed. rewrite length_imap.
        now apply Forall2_length in Hvalues.
      * intros k r q Hk Hq. unfold indexed in Hq.
        rewrite list_lookup_imap in Hq.
        destruct (ps !! k) as [p |] eqn:Hp; [| discriminate].
        cbn in Hq. injection Hq as <-.
        apply (Hlast k r p Hk Hp). now apply NoDup_not_later.
Qed.

(** [_open] on a menu with pages and a free identity goes through. *)
Lemma _open_goes_through (st : St) (p : Page) :
  0 < HISTORY_CACHE_LIMIT ->
  pages (self st) <> [] ->
  page (self st) = Some p ->
  sessions (env st) !! identity (self st) = None ->
  exists st', _open st = (Ok tt, st') /\ opened_from st p st'.
Proof.
  intros Hpos Hpages Hp Hfree.
  unfold _open, opened_from. step.
  destruct (pages (self st)) as [| q qs]; [contradiction |].
  step_with (_start_session_free st Hfree).
  erewrite bind_ok by (apply current_page_ok; exact Hp).
  unfold api_send. repeat step. tidy.
  match goal with |- context [bind update_history _ ?s] =>
    destruct (update_history_newest s p Hpos Hp) as (h & Hh & Hlast);
    step_with Hh
  end.
  clear Hh. tidy. unfold _cleanup_input. step. tidy.
  unfold command_message.
  destruct (_command_message (self st)); cbn [negb andb];
    [| destruct (in_guild (message (ctx (self st))))];
    try (unfold api_delete; step);
    (eexists; split; [reflexivity |]; tidy;
     rewrite ?app_nil_r;
     repeat (split; [first [reflexivity | exact Hlast | exact Hp] |]);
     first [reflexivity | exact Hp]).
Qed.

(** What [_open] does for a menu with pages and a free identity: the
    session is registered, the current page is sent to the destination and
    the new message becomes the output, the invoking message becomes the
    input and is deleted when it lies in a guild channel and
    [show_command_message] was not called, and the page's index is the
    newest history entry. *)
Theorem _open_effects (st : St) (p : Page) :
  0 < HISTORY_CACHE_LIMIT ->
  pages (self st) <> [] ->
  page (self st) = Some p ->
  sessions (env st) !! identity (self st) = None ->
  exists st',
    _open st = (Ok tt, st')
    /\ sessions (env st')
       = <[identity (self st) := ref (self st)]> (sessions (env st))
    /\ output (self st')
       = Some {| msg_id := next_id (env st);
                 in_guild := dest_in_guild (destination (self st));
                 reactions := [] |}
    /\ input (self st') = IMessage (message (ctx (self st)))
    /\ last (history (self st')) = Some (index p)
    /\ api (env st')
       = (api (env st) ++ [Send (next_id (env st)) (PageEmbed p)])
         ++ (if negb (command_message (self st))
                && in_guild (message (ctx (self st)))
             then [Delete (msg_id (message (ctx (self st))))] else [])
    /\ active (self st') = active (self st)
    /\ page (self st') = Some p.
Proof. exact (_open_goes_through st p). Qed.

(** With a cache limit of zero or less the first [update_history] pops from
    an empty list: it raises [IndexError] and appends nothing.  [_open] then
    fails after the session has been registered and the page sent. *)
Theorem nonpositive_history_limit_breaks_open (st : St) (p : Page) :
  HISTORY_CACHE_LIMIT <= 0 ->
  history (self st) = [] ->
  update_history st = (Raise IndexError, st)
  /\ (pages (self st) <> [] ->
      page (self st) = Some p ->
      sessions (env st) !! identity (self st) = None ->
      exists st',
        _open st = (Raise IndexError, st')
        /\ sessions (env st') !! identity (self st) = Some (ref (self st))
        /\ api (env st')
           = api (env st) ++ [Send (next_id (env st)) (PageEmbed p)]
        /\ history (self st') = []).
Proof.
  intros Hlimit Hempty.
  assert (Hraise : forall s, history (self s) = [] ->
                             update_history s = (Raise IndexError, s)).
  { intros s Hs. unfold update_history. step. rewrite Hs. cbn [length].
    destruct (Z.leb_spec HISTORY_CACHE_LIMIT (Z.of_nat 0)); [| lia].
    reflexivity. }
  split; [now apply Hraise |].
  intros Hpages Hp Hfree. unfold _open. step.
  destruct (pages (self st)) as [| q qs]; [contradiction |].
  step_with (_start_session_free st Hfree).
  erewrite bind_ok by (apply current_page_ok; exact Hp).
  unfold api_send. repeat step. tidy.
  erewrite bind_raise by (apply Hraise; tidy; exact Hempty).
  eexists. split; [reflexivity |]. tidy.
  split; [apply lookup_insert_eq |]. split; [reflexivity | exact Hempty].
Qed.

(** The platform calls of [_add_buttons]: one [add_reaction] on the output
    for each button of the current page, in order; the menu object and the
    registry are not touched. *)
Lemma add_reactions_calls (bs : list Button) :
  forall (st : St) (out : Message),
    output (self st) = Some out ->
    exists e',
      add_reactions bs st = (Ok tt, {| self := self st; env := e' |})
      /\ sessions e' = sessions (env st)
      /\ api e' = api (env st) ++ map (AddReaction (msg_id out)) bs.
Proof.
  induction bs as [| b rest IH]; intros st out Hout.
  - exists (env st). destruct st. cbn. rewrite app_nil_r. auto.
  - cbn [add_reactions]. step_with (current_output_ok st out Hout).
    step.
    match goal with |- context [add_reactions rest ?s] =>
      destruct (IH s out Hout) as (e' & Hrun & Hsess & Hapi)
    end.
    exists e'. split; [exact Hrun |]. split; [exact Hsess |].
    rewrite Hapi. tidy. cbn [map]. now rewrite <- app_assoc.
Qed.

(** [open] on a menu that is not active (one that was closed before, say):
    validation and [_open] run as for any menu, so the identity is
    registered, the page is sent (and the invoking message deleted where
    [_open] deletes it) and the buttons of the page are added to the new
    message; then the loop is not entered: [open] returns with the inactive
    menu left in the registry, no callback called and nothing fetched. *)
Theorem open_on_inactive_menu_returns_at_once
  (script : list (list Completed)) (st : St) (p : Page) :
  0 < HISTORY_CACHE_LIMIT ->
  fst (_validate_buttons st) = Ok tt ->
  pages (self st) <> [] ->
  page (self st) = Some p ->
  active (self st) = false ->
  sessions (env st) !! identity (self st) = None ->
  exists st',
    open script st = (Ok Returned, st')
    /\ active (self st') = false
    /\ sessions (env st')
       = <[identity (self st) := ref (self st)]> (sessions (env st))
    /\ hook_calls (env st') = hook_calls (env st)
    /\ output (self st')
       = Some {| msg_id := next_id (env st);
                 in_guild := dest_in_guild (destination (self st));
                 reactions := [] |}
    /\ api (env st')
       = ((api (env st) ++ [Send (next_id (env st)) (PageEmbed p)])
          ++ (if negb (command_message (self st))
                 && in_guild (message (ctx (self st)))
              then [Delete (msg_id (message (ctx (self st))))] else []))
         ++ map (AddReaction (next_id (env st))) (buttons_list p).
Proof.
  intros Hpos Hvalid Hpages Hp Hactive Hfree.
  destruct (_validate_buttons_adds_log st) as (l & Hsnd).
  assert (Hrun : _validate_buttons st = (Ok tt, add_log l st)).
  { destruct (_validate_buttons st) as [r s]. cbn [fst snd] in *.
    now subst. }
  destruct (_open_goes_through (add_log l st) p Hpos Hpages Hp Hfree)
    as (st1 & Hopen & Hsess & Hout & _ & _ & Hapi & Hact & Hpage).
  unfold add_log in Hsess, Hout, Hact, Hapi. tidy.
  assert (Htry : try (_validate_buttons ;; _open) st = (Ok (Ok tt), st1)).
  { unfold try. rewrite (bind_ok _ _ _ _ _ Hrun). fold (add_log l st).
    now rewrite Hopen. }
  unfold open. step_with Htry.
  assert (Hadd : exists e'',
             _add_buttons st1 = (Ok tt, {| self := self st1; env := e'' |})
             /\ sessions e'' = sessions (env st1)
             /\ api e''
                = api (env st1)
                  ++ map (AddReaction (next_id (env st))) (buttons_list p)).
  { unfold _add_buttons. step_with (current_page_ok st1 p Hpage).
    apply (add_reactions_calls (buttons_list p) st1 _ Hout). }
  destruct Hadd as (e'' & Hadd & Hsess' & Hapi').
  step_with Hadd.
  assert (Hloop : main_loop true script {| self := self st1; env := e'' |}
                  = (Ok Returned, {| self := self st1; env := e'' |})).
  { destruct script; cbn [main_loop]; step; tidy;
      rewrite Hact, Hactive; reflexivity. }
  rewrite Hloop. eexists. split; [reflexivity |]. tidy.
  split; [congruence |]. split; [congruence |]. split.
  - pose proof (silent_open script st) as Hsilent.
    unfold open in Hsilent. rewrite (bind_ok _ _ _ _ _ Htry) in Hsilent.
    rewrite (bind_ok _ _ _ _ _ Hadd), Hloop in Hsilent. exact Hsilent.
  - split; [exact Hout |]. rewrite Hapi', Hapi. reflexivity.
Qed.

End Building.

(** ** Matching an event to a button *)

(** On a page whose buttons are all strings without a colon, [_get_emoji]
    returns the button that equals the event's emoji name when there is
    one, and nothing otherwise; the menu is not changed. *)
Theorem _get_emoji_of_plain_buttons (st : St) (p : Page)
  (ev : RawReactionActionEvent) :
  page (self st) = Some p ->
  Forall (fun b => exists s, b = BStr s /\ length (split ":" s) = 1%nat)
    (buttons_list p) ->
  (In (BStr (pe_name (emoji ev))) (buttons_list p) ->
   _get_emoji ev st = (Ok (Some (BStr (pe_name (emoji ev)))), st))
  /\ (~ In (BStr (pe_name (emoji ev))) (buttons_list p) ->
      _get_emoji ev st = (Ok None, st)).
Proof.
  intros Hp Hplain. unfold _get_emoji.
  rewrite (bind_ok _ _ _ _ _ (current_page_ok st p Hp)). cbv [ret].
  induction (buttons_list p) as [| b bs IH]; cbn [match_button In].
  - split; [intros [] | reflexivity].
  - apply Forall_cons in Hplain as [(s & -> & Hone) Hrest].
    specialize (IH Hrest) as [IHin IHout]. rewrite Hone.
    replace (1 <? Z.of_nat 1) with false by reflexivity.
    destruct (String.eqb_spec s (pe_name (emoji ev))) as [-> | Hne].
    + split; [reflexivity | intros Hnot; exfalso; apply Hnot; now left].
    + split.
      * intros [Heq | Hin]; [congruence | now apply IHin].
      * intros Hnot. apply IHout. intros Hin. apply Hnot. now right.
Qed.

(** ** The code on concrete sessions *)

#[local] Existing Instance Scenario.settings.

(** C1 (the code on the two-page session of the claim).  The owner's press
    of 🔄 passes the reaction check and the reaction source resolves with that
    button, yet [open] does not invoke the [on_next] callback: [_get_input]
    stores the button and returns nothing, and the loop overwrites the input
    with that nothing.  The session stays on page 0, active and registered.
    The callback itself, had it run, would have advanced to page 1 and
    thereby closed and unregistered the session.  On a menu on which nothing
    assigned [custom_check] the reaction source fails before any event, and
    [open] ends with [AttributeError], again without a callback.  In general
    [open] invokes no callback, for any settings, state and events. *)
Theorem press_does_not_reach_the_callback :
  _check_reaction (self Scenario.waiting) Scenario.press = Ok true
  /\ fst (result (ReactionAdd (Some Scenario.press)) Scenario.waiting)
     = Ok (Some Scenario.reload)
  /\ fst (open [[ReactionAdd (Some Scenario.press)]] Scenario.two_pages)
     = Ok Awaiting
  /\ hook_calls
       (env (snd (open [[ReactionAdd (Some Scenario.press)]]
                    Scenario.two_pages))) = []
  /\ option_map index
       (page (self (snd (open [[ReactionAdd (Some Scenario.press)]]
                           Scenario.two_pages)))) = Some 0
  /\ input (self (snd (open [[ReactionAdd (Some Scenario.press)]]
                         Scenario.two_pages))) = INone
  /\ active (self (snd (open [[ReactionAdd (Some Scenario.press)]]
                          Scenario.two_pages))) = true
  /\ sessions (env (snd (open [[ReactionAdd (Some Scenario.press)]]
                           Scenario.two_pages)))
       !! identity (self Scenario.two_pages) = Some 1%nat
  /\ fst (call_on_next_event Scenario.waiting) = Ok tt
  /\ option_map index
       (page (self (snd (call_on_next_event Scenario.waiting)))) = Some 1
  /\ active (self (snd (call_on_next_event Scenario.waiting))) = false
  /\ sessions (env (snd (call_on_next_event Scenario.waiting)))
       !! identity (self Scenario.two_pages) = None
  /\ fst (open [[ReactionAdd (Some Scenario.press)]]
            Scenario.two_pages_fresh) = Raise AttributeError
  /\ hook_calls
       (env (snd (open [[ReactionAdd (Some Scenario.press)]]
                    Scenario.two_pages_fresh))) = []
  /\ (forall (cfg : Settings) (script : list (list Completed)) (st : St),
        hook_calls (env (snd (@open cfg script st))) = hook_calls (env st)).
Proof.
  repeat apply conj;
    lazymatch goal with
    | |- forall _, _ => intros cfg script st; apply (@silent_open cfg)
    | |- _ => vm_compute; reflexivity
    end.
Qed.

(** C2 (the code on the two-page session).  When [asyncio.wait] times out
    with all three tasks pending, [_get_input] calls [self._timeout()], which
    is no method: [open] ends with [AttributeError], or with [TypeError] once
    [set_timeout] has stored a duration; it ends the same way when a reaction
    source meets its own timeout first.  No callback is invoked, no notice is
    rendered, the session stays active and registered.  The text-driven
    [BaseMenu._get_input] on the same state reaches [_execute_timeout]: the
    notice is rendered, the session unregistered and made inactive, and no
    input is returned. *)
Theorem timeout_raises_and_leaves_the_session_open :
  fst (open [[]] Scenario.two_pages) = Raise AttributeError
  /\ active (self (snd (open [[]] Scenario.two_pages))) = true
  /\ sessions (env (snd (open [[]] Scenario.two_pages)))
       !! identity (self Scenario.two_pages) = Some 1%nat
  /\ hook_calls (env (snd (open [[]] Scenario.two_pages))) = []
  /\ api (env (snd (open [[]] Scenario.two_pages)))
     = api (env Scenario.waiting)
  /\ fst (open [[ReactionAdd None]] Scenario.two_pages) = Raise AttributeError
  /\ fst (open [[]] Scenario.two_pages_timed) = Raise TypeError
  /\ active (self (snd (open [[]] Scenario.two_pages_timed))) = true
  /\ sessions (env (snd (open [[]] Scenario.two_pages_timed)))
       !! identity (self Scenario.two_pages) = Some 1%nat
  /\ fst (BaseMenu_get_input None Scenario.waiting) = Ok INone
  /\ last (api (env (snd (BaseMenu_get_input None Scenario.waiting))))
     = Some (Send 1001 TimedOutEmbed)
  /\ active (self (snd (BaseMenu_get_input None Scenario.waiting))) = false
  /\ sessions (env (snd (BaseMenu_get_input None Scenario.waiting)))
       !! identity (self Scenario.two_pages) = None.
Proof. repeat apply conj; vm_compute; reflexivity. Qed.

(** C4 (counterexample).  Both pages of this session carry an [on_next]
    callback, the last one included; validation passes, and [open] registers
    the session and enters the loop. *)
Lemma hook_on_last_page_is_accepted :
  last_page_has_callback Scenario.hook_on_last
  /\ ~ rejected_at_open [] Scenario.hook_on_last
  /\ fst (_validate_buttons Scenario.hook_on_last) = Ok tt
  /\ fst (open [] Scenario.hook_on_last) = Ok Awaiting
  /\ sessions (env (snd (open [] Scenario.hook_on_last)))
       !! identity (self Scenario.hook_on_last) = Some 1%nat.
Proof.
  split; [| split].
  - do 2 eexists. apply conj; vm_compute; reflexivity.
  - intros (e & He & Hraise & _). vm_compute in Hraise.
    destruct He; subst e; discriminate.
  - repeat apply conj; vm_compute; reflexivity.
Qed.

(** C5 (counterexample).  A session with exactly one page is not refused:
    [open] logs nothing, registers it and waits in its loop, active. *)
Lemma one_page_session_opens :
  length (pages (self Scenario.single)) = 1%nat
  /\ ~ rejected_at_open [] Scenario.single
  /\ fst (open [] Scenario.single) = Ok Awaiting
  /\ active (self (snd (open [] Scenario.single))) = true
  /\ sessions (env (snd (open [] Scenario.single)))
       !! identity (self Scenario.single) = Some 1%nat
  /\ log (env (snd (open [] Scenario.single))) = [].
Proof.
  split; [reflexivity |]. split.
  - intros (e & He & Hraise & _). vm_compute in Hraise.
    destruct He; subst e; discriminate.
  - repeat apply conj; vm_compute; reflexivity.
Qed.


(** ** The theorems at concrete sessions *)

(** C3 at the process in which the first menu is open: the second [open]
    for the same user and channel returns, with one more log record. *)
Lemma registry_witness :
  exists warnings,
    Forall is_warning warnings
    /\ open_in 2 [] Scenario.process
       = (Some (Ok Returned),
          {| heap := heap Scenario.process;
             shared :=
               with_log
                 (log (shared Scenario.process)
                  ++ warnings ++ [(INFO, MessageOf SessionError)])
                 (shared Scenario.process) |}).
Proof.
  apply (proj2 (proj2 registry_admits_one_session_per_identity)
           Scenario.process 1%nat 2%nat
           (self (Scenario.menu_of 2 [Scenario.with_button; Scenario.blank]))).
  - vm_compute; reflexivity.
  - vm_compute; reflexivity.
  - vm_compute; discriminate.
  - vm_compute; reflexivity.
Defined.

(** C4 at three pages of which only the first has a callback. *)
Lemma missing_callbacks_witness :
  rejected_at_open [] Scenario.one_callback
  /\ exists (e : exn) (warnings : list (Level * LogMsg)),
       (e = ButtonsError \/ e = EventError)
       /\ Forall is_warning warnings
       /\ open [] Scenario.one_callback
          = (Ok Returned,
             add_log (warnings ++ [(ERROR, MessageOf e)])
               Scenario.one_callback).
Proof.
  apply (missing_callbacks_are_rejected [] Scenario.one_callback
           (set_index 0 Scenario.with_button)).
  - vm_compute; reflexivity.
  - vm_compute; reflexivity.
Defined.

(** C5 at the one-page session. *)
Lemma one_page_witness :
  fst (_validate_buttons Scenario.single) = Ok tt
  /\ exists st',
       open [] Scenario.single = (Ok Awaiting, st')
       /\ active (self st') = true
       /\ sessions (env st') !! identity (self Scenario.single)
          = Some (ref (self Scenario.single)).
Proof.
  apply (proj2 one_page_session_is_accepted Scenario.single
           (set_index 0 Scenario.with_button)).
  - reflexivity.
  - vm_compute; reflexivity.
  - vm_compute; reflexivity.
  - reflexivity.
  - vm_compute; reflexivity.
  - vm_compute; reflexivity.
  - vm_compute; reflexivity.
  - vm_compute; discriminate.
Defined.

(** C6 at the last and at the first page of the two-page session. *)
Lemma navigation_witness :
  next Scenario.on_last_page = (Ok tt, Scenario.on_last_page)
  /\ previous Scenario.waiting = (Ok tt, Scenario.waiting).
Proof.
  assert (Hlast : page (self Scenario.on_last_page)
                  = Some (set_index 1 Scenario.blank))
    by (vm_compute; reflexivity).
  assert (Hfirst : page (self Scenario.waiting)
                   = Some (set_index 0 Scenario.with_button))
    by (vm_compute; reflexivity).
  split.
  - apply (proj1 (navigation_at_bounds_is_noop Scenario.on_last_page
                    (set_index 1 Scenario.blank) Hlast)).
    vm_compute; reflexivity.
  - apply (proj2 (navigation_at_bounds_is_noop Scenario.waiting
                    (set_index 0 Scenario.with_button) Hfirst)).
    reflexivity.
Defined.

(** C7 with capacity 10 and twelve visits: the indices 0 and 1 are gone. *)
Lemma history_witness :
  exists st',
    visits Scenario.twelve_pages Scenario.two_pages = (Ok tt, st')
    /\ history (self st') = [2; 3; 4; 5; 6; 7; 8; 9; 10; 11].
Proof.
  destruct (history_is_bounded_fifo Scenario.two_pages Scenario.twelve_pages)
    as (st' & Hrun & Hhistory & _).
  - reflexivity.
  - vm_compute. lia.
  - exists st'. split; [exact Hrun |]. rewrite Hhistory. reflexivity.
Defined.


(** C9 at the histories [0; 1] and [0]. *)
Lemma last_visited_page_witness :
  last_visited_page Scenario.advanced = (Ok 0, Scenario.advanced)
  /\ last_visited_page Scenario.waiting = (Ok 0, Scenario.waiting).
Proof.
  split.
  - apply (proj1 (last_visited_page_is_second_newest Scenario.advanced)
             [] 0 1).
    vm_compute; reflexivity.
  - apply (proj2 (last_visited_page_is_second_newest Scenario.waiting)).
    vm_compute. lia.
Defined.

(** ** Further theorems at concrete sessions *)


Lemma absolute_navigation_witness :
  arrives_at Scenario.page1 Scenario.shown Scenario.waiting
    (to_last Scenario.waiting)
  /\ arrives_at Scenario.page0 Scenario.shown Scenario.waiting
       (go_to (Some (ByIndex (-2))) Scenario.waiting).
Proof.
  split.
  - apply (fun H1 H2 H3 =>
             proj1 (proj2 (absolute_navigation_arrives Scenario.waiting
                             Scenario.page1 Scenario.shown H1 H2)) H3);
      vm_compute; reflexivity.
  - apply (fun H1 H2 H3 =>
             proj2 (proj2 (absolute_navigation_arrives Scenario.waiting
                             Scenario.page0 Scenario.shown H1 H2)) (-2) H3);
      vm_compute; reflexivity.
Defined.

Lemma navigation_without_target_witness :
  to_first Scenario.empty_menu = (Raise IndexError, Scenario.empty_menu)
  /\ go_to (Some (ByIndex 2)) Scenario.waiting
     = (Raise IndexError, Scenario.waiting).
Proof.
  split.
  - apply (fun H => proj1 (proj1 (navigation_without_target_raises
                                    Scenario.empty_menu) H)).
    reflexivity.
  - apply (fun H => proj2 (navigation_without_target_raises Scenario.waiting)
                      2 H).
    right. vm_compute. discriminate.
Defined.

Lemma to_last_then_to_first_witness :
  exists st',
    (to_last ;; to_first)%menu Scenario.waiting = (Ok tt, st')
    /\ page (self st') = Some Scenario.page0
    /\ active (self st') = false
    /\ output (self st')
       = Some {| msg_id := 1002; in_guild := false; reactions := [] |}
    /\ api (env st')
       = api (env Scenario.waiting)
         ++ [Delete 1000; Send 1001 (PageEmbed Scenario.page1);
             Delete 1001; Send 1002 (PageEmbed Scenario.page0)].
Proof.
  destruct (to_last_then_to_first_returns Scenario.waiting Scenario.page0
              Scenario.page1 Scenario.advance Scenario.shown)
    as (st' & Hrun & Hpage & _ & Hact & Hout & Hapi).
  - reflexivity.
  - vm_compute; reflexivity.
  - vm_compute; reflexivity.
  - vm_compute; reflexivity.
  - reflexivity.
  - right. exists 1%nat. vm_compute; reflexivity.
  - exists st'. split; [exact Hrun |]. split; [exact Hpage |].
    split; [exact Hact |]. split.
    + rewrite Hout. vm_compute. reflexivity.
    + rewrite Hapi. vm_compute. reflexivity.
Defined.

Lemma go_to_by_name_witness :
  arrives_at Scenario.page0 Scenario.shown Scenario.waiting
    (go_to (Some (ByName "advance")) Scenario.waiting)
  /\ go_to (Some (ByName "missing")) Scenario.waiting
     = (Raise AttributeError, Scenario.waiting).
Proof.
  split.
  - apply (fun H1 H2 H3 H4 H5 H6 =>
             proj1 (proj1 (go_to_by_name Scenario.waiting "advance"
                             Scenario.shown H1 H2)
                      [] [Scenario.page1] Scenario.page0 H3 H4)
               Scenario.advance H5 H6).
    + reflexivity.
    + vm_compute; reflexivity.
    + vm_compute; reflexivity.
    + constructor.
    + reflexivity.
    + reflexivity.
  - apply (fun H1 H2 H3 H4 H5 =>
             proj2 (proj1 (go_to_by_name Scenario.waiting "missing"
                             Scenario.shown H1 H2)
                      [Scenario.page0] [] Scenario.page1 H3 H4) H5).
    + reflexivity.
    + vm_compute; reflexivity.
    + vm_compute; reflexivity.
    + constructor; [| constructor]. exists Scenario.advance.
      split; [reflexivity |]. vm_compute. discriminate.
    + reflexivity.
Defined.

Lemma close_with_cancel_callback_witness :
  close Scenario.guarded
  = (Ok tt,
     {| self := self Scenario.guarded;
        env := with_hook_calls
                 (hook_calls (env Scenario.guarded) ++ ["cancelled"%string])
                 (env Scenario.guarded) |}).
Proof.
  apply (close_with_cancel_callback_only_calls_it Scenario.guarded
           Scenario.guarded_page "cancelled"); reflexivity.
Defined.

Lemma close_cleans_up_witness :
  exists st',
    close Scenario.waiting = (Ok tt, st')
    /\ active (self st') = false
    /\ sessions (env st') !! identity (self Scenario.waiting) = None
    /\ output (self st') = None.
Proof.
  destruct (close_cleans_up_once Scenario.waiting Scenario.page0
              Scenario.shown 1%nat)
    as (st' & Hrun & Hact & Hsess & Hout & _).
  - vm_compute; reflexivity.
  - reflexivity.
  - vm_compute; reflexivity.
  - vm_compute; reflexivity.
  - exists st'. split; [exact Hrun |]. split; [exact Hact |].
    split; [rewrite Hsess; apply lookup_delete_eq | exact Hout].
Defined.

Lemma timeout_protocol_witness :
  _execute_timeout Scenario.guarded
  = (Ok tt,
     {| self := self Scenario.guarded;
        env := with_hook_calls
                 (hook_calls (env Scenario.guarded) ++ ["timed_out"%string])
                 (env Scenario.guarded) |}).
Proof.
  apply (fun H1 H2 H3 =>
           proj1 (timeout_protocol Scenario.guarded Scenario.guarded_page
                    Scenario.shown H1 H2) "timed_out" H3).
  - reflexivity.
  - vm_compute; reflexivity.
  - reflexivity.
Defined.

Lemma registration_round_trip_witness :
  exists st',
    (_start_session ;; close_session)%menu Scenario.two_pages = (Ok tt, st')
    /\ sessions (env st') = sessions (env Scenario.two_pages)
    /\ active (self st') = false
    /\ close_session st' = (Raise KeyError, st').
Proof.
  apply (registration_round_trip Scenario.two_pages).
  vm_compute; reflexivity.
Defined.

Lemma validation_ignores_pages_after_gap_witness :
  fst (_validate_buttons
         {| self := with_pages ([Scenario.page0] ++ Scenario.page1
                                 :: [Scenario.blank])
                      (self Scenario.two_pages);
            env := Scenario.quiet |})
  = fst (_validate_buttons
           {| self := with_pages ([Scenario.page0] ++ Scenario.page1
                                   :: [Scenario.bad_buttons])
                        (self Scenario.two_pages);
              env := Scenario.quiet |}).
Proof.
  apply (fun H1 H2 =>
           proj1 (validation_ignores_pages_after_gap
                    (self Scenario.two_pages) Scenario.quiet
                    [Scenario.page0] [Scenario.blank] [Scenario.bad_buttons]
                    Scenario.page1 H1 H2)); reflexivity.
Defined.

Lemma on_fail_callback_witness : rejected_at_open [] Scenario.guarded.
Proof.
  apply (fun H1 H2 =>
           proj1 (on_fail_callback_is_rejected [] Scenario.guarded
                    Scenario.guarded_page "failed" H1 H2)); reflexivity.
Defined.

Lemma open_without_pages_witness :
  open [] Scenario.empty_menu = (Raise AttributeError, Scenario.empty_menu).
Proof.
  apply (open_without_pages_raises [] Scenario.empty_menu); reflexivity.
Defined.

Lemma add_pages_indexes_witness :
  (exists h',
     Objects.add_pages [0%nat; 1%nat] Scenario.holds_nothing
       Scenario.page_objects
     = (Ok tt,
        ({| Objects.held_pages := [0%nat; 1%nat];
            Objects.held_page := Some 0%nat |}, h'))
     /\ h' !! 0%nat = Some Scenario.page0
     /\ h' !! 1%nat = Some Scenario.page1)
  /\ (exists h',
        Objects.add_pages [0%nat; 0%nat] Scenario.holds_nothing
          Scenario.page_objects
        = (Ok tt,
           ({| Objects.held_pages := [0%nat; 0%nat];
               Objects.held_page := Some 0%nat |}, h'))
        /\ h' !! 0%nat = Some (set_index 1 Scenario.with_button)
        /\ h' !! 1%nat = Some Scenario.blank).
Proof.
  split.
  - destruct (add_pages_indexes [0%nat; 1%nat] Scenario.holds_nothing
                Scenario.page_objects [Scenario.with_button; Scenario.blank])
      as (h' & Hrun & _ & Hlast & _).
    + discriminate.
    + repeat constructor.
    + exists h'. split; [exact Hrun |]. split.
      * apply (Hlast 0%nat 0%nat Scenario.with_button);
          [reflexivity | reflexivity |].
        cbn. intros Hin. apply list_elem_of_singleton in Hin. discriminate.
      * apply (Hlast 1%nat 1%nat Scenario.blank);
          [reflexivity | reflexivity |].
        cbn. apply not_elem_of_nil.
  - destruct (add_pages_indexes [0%nat; 0%nat] Scenario.holds_nothing
                Scenario.page_objects
                [Scenario.with_button; Scenario.with_button])
      as (h' & Hrun & Hrest & Hlast & _).
    + discriminate.
    + repeat constructor.
    + exists h'. split; [exact Hrun |]. split.
      * apply (Hlast 1%nat 0%nat Scenario.with_button);
          [reflexivity | reflexivity |].
        cbn. apply not_elem_of_nil.
      * rewrite Hrest; [reflexivity |].
        intros Hin. apply elem_of_cons in Hin as [? | Hin];
          [discriminate |].
        apply list_elem_of_singleton in Hin. discriminate.
Defined.

Lemma _open_effects_witness :
  exists st',
    _open Scenario.two_pages = (Ok tt, st')
    /\ sessions (env st') !! identity (self Scenario.two_pages) = Some 1%nat
    /\ api (env st') = [Send 1000 (PageEmbed Scenario.page0)].
Proof.
  destruct (_open_effects Scenario.two_pages Scenario.page0)
    as (st' & Hrun & Hsess & _ & _ & _ & Hapi & _).
  - reflexivity.
  - vm_compute; discriminate.
  - vm_compute; reflexivity.
  - vm_compute; reflexivity.
  - exists st'. split; [exact Hrun |]. split.
    + rewrite Hsess. apply lookup_insert_eq.
    + rewrite Hapi. reflexivity.
Defined.

Lemma nonpositive_history_limit_witness :
  @update_history Scenario.no_history Scenario.two_pages
  = (Raise IndexError, Scenario.two_pages).
Proof.
  apply (fun H1 H2 =>
           proj1 (@nonpositive_history_limit_breaks_open Scenario.no_history
                    Scenario.two_pages Scenario.page0 H1 H2)).
  - vm_compute; discriminate.
  - vm_compute; reflexivity.
Defined.

Lemma open_on_inactive_menu_witness :
  exists st',
    open [] Scenario.closed_before = (Ok Returned, st')
    /\ active (self st') = false
    /\ sessions (env st') !! identity (self Scenario.closed_before)
       = Some (ref (self Scenario.closed_before))
    /\ hook_calls (env st') = []
    /\ api (env st')
       = [Send 1000 (PageEmbed Scenario.page0);
          AddReaction 1000 Scenario.reload].
Proof.
  destruct (open_on_inactive_menu_returns_at_once [] Scenario.closed_before
              Scenario.page0)
    as (st' & Hrun & Hact & Hsess & Hhooks & _ & Hapi).
  - reflexivity.
  - vm_compute; reflexivity.
  - vm_compute; discriminate.
  - vm_compute; reflexivity.
  - reflexivity.
  - vm_compute; reflexivity.
  - exists st'. split; [exact Hrun |]. split; [exact Hact |]. split.
    + rewrite Hsess. apply lookup_insert_eq.
    + split.
      * rewrite Hhooks. vm_compute. reflexivity.
      * rewrite Hapi. vm_compute. reflexivity.
Defined.

Lemma _get_emoji_of_plain_buttons_witness :
  _get_emoji Scenario.press Scenario.waiting
  = (Ok (Some (BStr (pe_name (emoji Scenario.press)))), Scenario.waiting).
Proof.
  apply (fun H1 H2 H3 =>
           proj1 (_get_emoji_of_plain_buttons Scenario.waiting Scenario.page0
                    Scenario.press H1 H2) H3).
  - vm_compute; reflexivity.
  - constructor; [| constructor]. eexists. split; reflexivity.
  - left. reflexivity.
Defined.
